(** * A shallow embedding of the novel scraper (main.py, storage.py)

    The development follows the two Python modules:
    - [storage.py]: [StorageHandler] with its resumable index,
    - [main.py]: [fetch], [save_chapter], [download_chapter] and the task
      loop of [main].

    Python [str] values are lists of Unicode code points, [bytes] values are
    lists of [Byte.byte].  Effects (file system, network, the handler's
    dictionary, sleeping, logging) are threaded through a state-and-exception
    monad over a [world]; every successful effect leaves an [event] in the
    world's trace.  Console output ([print]) is not modelled. *)

From Stdlib Require Import String.
From Stdlib Require Import ZArith NArith List Lia Bool Decimal Sorted.
From Stdlib.Strings Require Import Ascii Byte.
From stdpp Require Import base decidable option list gmap fin_maps.

Local Open Scope N_scope.

(** ** Python strings *)

Abbreviation pystr := (list N).
Abbreviation bytes := (list byte).

(** A Rocq string literal read as a Python [str] (code points below 256). *)
Definition py (s : String.string) : pystr :=
  map N_of_ascii (String.list_ascii_of_string s).
Arguments py s%_string.

(** [str.isspace] for one code point: the table of CPython's
    [_PyUnicode_IsWhitespace]. *)
Definition isspace (c : N) : bool :=
  ((9 <=? c) && (c <=? 13)) || ((28 <=? c) && (c <=? 32))
  || (c =? 133) || (c =? 160) || (c =? 5760)
  || ((8192 <=? c) && (c <=? 8202))
  || (c =? 8232) || (c =? 8233) || (c =? 8239) || (c =? 8287) || (c =? 12288).

Fixpoint lstrip (s : pystr) : pystr :=
  match s with
  | c :: s' => if isspace c then lstrip s' else s
  | [] => []
  end.

Definition rstrip (s : pystr) : pystr := rev (lstrip (rev s)).

(** [s.strip()] *)
Definition strip (s : pystr) : pystr := rstrip (lstrip s).

(** The character class that [re.sub] deletes in [_clean_str] and
    [clean_filename]: backslash, slash, star, question mark, colon, double
    quote, angle brackets and the vertical bar. *)
Definition illegal_char (c : N) : bool :=
  (c =? 92) || (c =? 47) || (c =? 42) || (c =? 63) || (c =? 58)
  || (c =? 34) || (c =? 60) || (c =? 62) || (c =? 124).

Definition re_sub_illegal (s : pystr) : pystr :=
  List.filter (fun c => negb (illegal_char c)) s.

(** Truthiness of a [str]: the empty string is falsy. *)
Definition truthy (s : pystr) : bool :=
  match s with [] => false | _ => true end.

(** [sep.join(parts)] *)
Fixpoint join (sep : pystr) (parts : list pystr) : pystr :=
  match parts with
  | [] => []
  | [p] => p
  | p :: rest => p ++ sep ++ join sep rest
  end.

Definition NL : pystr := [10].

(** Decimal digits of a number, most significant first. *)
Fixpoint uint_digits (d : Decimal.uint) : pystr :=
  match d with
  | Decimal.Nil => []
  | Decimal.D0 d => 48 :: uint_digits d
  | Decimal.D1 d => 49 :: uint_digits d
  | Decimal.D2 d => 50 :: uint_digits d
  | Decimal.D3 d => 51 :: uint_digits d
  | Decimal.D4 d => 52 :: uint_digits d
  | Decimal.D5 d => 53 :: uint_digits d
  | Decimal.D6 d => 54 :: uint_digits d
  | Decimal.D7 d => 55 :: uint_digits d
  | Decimal.D8 d => 56 :: uint_digits d
  | Decimal.D9 d => 57 :: uint_digits d
  end.

Definition zero_pad (width : nat) (digits : pystr) : pystr :=
  repeat 48 (width - length digits)%nat ++ digits.

(** The format [{idx:04d}]: sign first, then zeros up to a total width of four. *)
Definition fmt04d (idx : Z) : pystr :=
  match idx with
  | Zneg p => 45 :: zero_pad 3 (uint_digits (Pos.to_uint p))
  | _ => zero_pad 4 (uint_digits (N.to_uint (Z.to_N idx)))
  end.

(** [os.path.join(a, b)] on a POSIX system. *)
Definition path_join (a b : pystr) : pystr :=
  match b with
  | 47 :: _ => b
  | _ =>
    match last a with
    | None => b
    | Some 47 => a ++ b
    | Some _ => a ++ [47] ++ b
    end
  end.

(** ** The world the program runs in *)

(** One entry of the index, a dict with the keys idx, title and file. *)
Record entry := Entry { e_idx : Z; e_title : pystr; e_file : pystr }.

(** What is on disk at [index.json], as [_load_index] can find it.  The
    handler only ever dumps a dictionary of entries, so a readable, well-formed
    file holds such a dictionary. *)
Inductive index_state :=
| NoFile                                  (* os.path.exists is false *)
| Unreadable                              (* open or read raises *)
| Malformed                               (* json.load raises *)
| Stored (m : gmap (list N) entry).

Inductive exn :=
| OSError | ClientError | TimeoutError | JSONDecodeError.

Inductive exc (A : Type) :=
| Ok (a : A)
| Raise (e : exn).
Arguments Ok {A} a.
Arguments Raise {A} e.

(** The outcome of one [session.get]: the context manager raises (transport
    error or timeout), or a response arrives whose body [response.read()]
    returns or raises. *)
Inductive attempt :=
| ConnRaises (e : exn)
| Response (status : Z) (body : exc bytes).

Inductive event :=
| EvGet (url : pystr)                     (* session.get(url) issued *)
| EvSleep (ms : N)                        (* asyncio.sleep, in milliseconds *)
| EvOpenW (path : pystr)                  (* open(path, 'w') succeeded *)
| EvWrite (path data : pystr)             (* f.write(data) succeeded *)
| EvIndexSet (url : pystr)                (* downloaded_chapters[url] = .. *)
| EvIndexDump                             (* json.dump into index.json done *)
| EvLogInfo
| EvLogError
| EvAcquire                               (* semaphore acquired *)
| EvRelease.                              (* semaphore released *)

Record world := World {
  fs : gmap (list N) (list N);            (* text files by path *)
  index_file : index_state;               (* index.json *)
  downloaded_chapters : gmap (list N) entry;    (* the handler's dict *)
  net : nat -> attempt;                   (* outcome of the n-th request *)
  reqs : nat;                             (* requests issued so far *)
  io_fails : nat -> bool;                 (* does the n-th file operation fail *)
  ticks : nat;                            (* file operations so far *)
  trace : list event
}.

Definition set_fs (f : gmap (list N) (list N) -> gmap (list N) (list N))
    (w : world) : world :=
  World (f (fs w)) (index_file w) (downloaded_chapters w) (net w) (reqs w)
        (io_fails w) (ticks w) (trace w).
Definition set_index_file (s : index_state) (w : world) : world :=
  World (fs w) s (downloaded_chapters w) (net w) (reqs w)
        (io_fails w) (ticks w) (trace w).
Definition set_downloaded
    (f : gmap (list N) entry -> gmap (list N) entry) (w : world) : world :=
  World (fs w) (index_file w) (f (downloaded_chapters w)) (net w) (reqs w)
        (io_fails w) (ticks w) (trace w).
Definition bump_reqs (w : world) : world :=
  World (fs w) (index_file w) (downloaded_chapters w) (net w) (S (reqs w))
        (io_fails w) (ticks w) (trace w).
Definition bump_ticks (w : world) : world :=
  World (fs w) (index_file w) (downloaded_chapters w) (net w) (reqs w)
        (io_fails w) (S (ticks w)) (trace w).
Definition record_event (e : event) (w : world) : world :=
  World (fs w) (index_file w) (downloaded_chapters w) (net w) (reqs w)
        (io_fails w) (ticks w) (trace w ++ [e]).

(** ** State and exception monad *)

Definition M (A : Type) : Type := world -> exc A * world.

Definition ret {A} (a : A) : M A := fun w => (Ok a, w).

Definition bind {A B} (m : M A) (k : A -> M B) : M B :=
  fun w =>
    match m w with
    | (Ok a, w') => k a w'
    | (Raise e, w') => (Raise e, w')
    end.

Definition raise {A} (e : exn) : M A := fun w => (Raise e, w).

(** [try: body  except Exception as e: handler(e)].  What the body did to the
    world before it raised stays done. *)
Definition try_except {A} (body : M A) (handler : exn -> M A) : M A :=
  fun w =>
    match body w with
    | (Ok a, w') => (Ok a, w')
    | (Raise e, w') => handler e w'
    end.

(** [try: body  finally: cleanup] *)
Definition try_finally {A} (body : M A) (cleanup : M unit) : M A :=
  fun w =>
    match body w with
    | (Ok a, w') =>
      match cleanup w' with
      | (Ok _, w'') => (Ok a, w'')
      | (Raise e, w'') => (Raise e, w'')
      end
    | (Raise e, w') =>
      match cleanup w' with
      | (Ok _, w'') => (Raise e, w'')
      | (Raise e', w'') => (Raise e', w'')
      end
    end.

Notation "x <~ m ;; k" := (bind m (fun x => k))
  (at level 100, m at next level, right associativity).
Notation "m ;; k" := (bind m (fun _ => k))
  (at level 100, right associativity).

Definition emit (e : event) : M unit := fun w => (Ok tt, record_event e w).

(** Every file operation may fail with an [OSError]; the world's oracle
    decides. *)
Definition file_op : M unit :=
  fun w =>
    if io_fails w (ticks w) then (Raise OSError, bump_ticks w)
    else (Ok tt, bump_ticks w).

(** [open(path, 'w')]: the file exists and is empty afterwards. *)
Definition open_w (path : pystr) : M unit :=
  file_op ;;
  (fun w => (Ok tt, set_fs (fun m => <[path := []]> m) w)) ;;
  emit (EvOpenW path).

(** [f.write(data)]: appends to what the file holds. *)
Definition write (path data : pystr) : M unit :=
  file_op ;;
  (fun w => (Ok tt,
     set_fs (fun m => <[path := default [] (m !! path) ++ data]> m) w)) ;;
  emit (EvWrite path data).

Definition sleep (ms : N) : M unit := emit (EvSleep ms).

Definition run {A} (m : M A) (w : world) : exc A * world := m w.

Definition log_info : M unit := emit EvLogInfo.
Definition log_error : M unit := emit EvLogError.

(** ** storage.py *)

Module Storage.

(** The fields [__init__] computes once; [downloaded_chapters], the one
    field that is mutated, lives in the world. *)
Record StorageHandler := Handler {
  novel_name : pystr;
  author : pystr;
  base_dir : pystr;
  chapter_dir : pystr;
  index_path : pystr
}.

Definition _clean_str (s : pystr) : pystr :=
  if truthy s then strip (re_sub_illegal s) else py "Unknown".

(** [os.path.exists(self.index_path)] *)
Definition index_exists : M bool :=
  fun w => (Ok (match index_file w with NoFile => false | _ => true end), w).

(** [with open(self.index_path, 'r') as f: return json.load(f)] *)
Definition read_index_json : M (gmap (list N) entry) :=
  fun w =>
    match index_file w with
    | NoFile => (Raise OSError, w)
    | Unreadable => (Raise OSError, w)
    | Malformed => (Raise JSONDecodeError, w)
    | Stored m => (Ok m, w)
    end.

Definition _load_index : M (gmap (list N) entry) :=
  found <~ index_exists ;;
  if found then try_except read_index_json (fun _ => ret ∅)
  else ret ∅.

(** [os.makedirs(path, exist_ok=True)]; directories are not kept in [fs]. *)
Definition makedirs (path : pystr) : M unit := file_op.

Definition __init__ (name : pystr) (auth : pystr) : M StorageHandler :=
  let novel := _clean_str name in
  let auth' := _clean_str auth in
  let base := path_join (py "downloads") (py "[" ++ auth' ++ py "] " ++ novel) in
  let chapters := path_join base (py "chapters") in
  makedirs chapters ;;
  let ipath := path_join base (py "index.json") in
  loaded <~ _load_index ;;
  (fun w => (Ok tt, set_downloaded (fun _ => loaded) w)) ;;
  ret (Handler novel auth' base chapters ipath).

Definition is_downloaded (chapter_url : pystr) : M bool :=
  fun w => (Ok (bool_decide (is_Some (downloaded_chapters w !! chapter_url))), w).

Definition chapter_filename (idx : Z) (title : pystr) : pystr :=
  fmt04d idx ++ py "_" ++ _clean_str title ++ py ".txt".

Definition chapter_filepath (self : StorageHandler) (idx : Z) (title : pystr)
    : pystr :=
  path_join (chapter_dir self) (chapter_filename idx title).

(** [self.downloaded_chapters[url] = {...}] *)
Definition index_set (url : pystr) (e : entry) : M unit :=
  (fun w => (Ok tt, set_downloaded (fun m => <[url := e]> m) w)) ;;
  emit (EvIndexSet url).

(** [with open(self.index_path, 'w') as f: json.dump(..., f)].  Opening
    truncates the file, which is no JSON document until the dump is done. *)
Definition dump_index : M unit :=
  file_op ;;
  (fun w => (Ok tt, set_index_file Malformed w)) ;;
  file_op ;;
  (fun w => (Ok tt, set_index_file (Stored (downloaded_chapters w)) w)) ;;
  emit EvIndexDump.

Definition save_chapter (self : StorageHandler) (idx : Z)
    (title content url : pystr) : M unit :=
  let safe_title := _clean_str title in
  let filename := fmt04d idx ++ py "_" ++ safe_title ++ py ".txt" in
  let filepath := path_join (chapter_dir self) filename in
  try_except
    (open_w filepath ;;
     write filepath (title ++ NL ++ NL) ;;
     write filepath content ;;
     index_set url (Entry idx safe_title filename) ;;
     dump_index ;;
     log_info)
    (fun _ => log_error).

End Storage.

(** ** main.py *)

(** The libraries [main.py] calls, taken as an interface: parsel's selector
    evaluation, [urllib.parse.urljoin], [gzip.decompress] and the codecs
    behind [bytes.decode].  A decompression or a strict decoding that raises
    is [None]; the inner handlers of [fetch] catch exactly those. *)
Class Libraries := {
  (* Selector(text=html).css(query).getall() *)
  css_getall : pystr -> pystr -> list pystr;
  (* the attrib dict of each element of Selector(text=html).css(query) *)
  css_elements : pystr -> pystr -> list (gmap (list N) (list N));
  urljoin : pystr -> pystr -> pystr;
  gzip_decompress : bytes -> option bytes;
  (* raw.decode(encoding) *)
  bytes_decode : pystr -> bytes -> option pystr;
  (* raw.decode('utf-8', errors='ignore') *)
  utf8_ignore : bytes -> pystr
}.

Module Main.

Definition CONCURRENCY : nat := 5.
Definition DELAY : N := 500.             (* 0.5 s, in milliseconds *)
Definition RETRIES : nat := 3.

(** [site_config['rules']] *)
Record Rules := {
  chapter_list : pystr;
  chapter_link_attr : pystr;
  chapter_title : pystr;
  chapter_content : pystr
}.

Definition clean_filename (filename : pystr) : pystr :=
  strip (re_sub_illegal filename).

(** How one pass through the body of a loop ends. *)
Inductive flow (A : Type) :=
| Returned (a : A)                        (* a return statement was reached *)
| FellThrough.                            (* control left the try statement *)
Arguments Returned {A} a.
Arguments FellThrough {A}.

Section WithLibraries.
Context `{Libraries}.

(** [raw[:2] == b'\x1f\x8b'] *)
Definition has_gzip_magic (raw : bytes) : bool :=
  match take 2 raw with
  | [a; b] => Byte.eqb a x1f && Byte.eqb b x8b
  | _ => false
  end.

(** Lines 51-55 of [fetch]: decompress when the magic is there, keep the
    bytes when decompression raises. *)
Definition gunzip (raw : bytes) : bytes :=
  if has_gzip_magic raw then
    match gzip_decompress raw with
    | Some plain => plain
    | None => raw
    end
  else raw.

Definition CANDIDATES : list pystr :=
  [py "utf-8"; py "gb18030"; py "gbk"; py "gb2312"; py "big5"].

(** Lines 66-74: the loop over the candidate encodings and the lenient
    decoding after it. *)
Fixpoint try_encodings (encs : list pystr) (raw : bytes) : pystr :=
  match encs with
  | enc :: rest =>
    match bytes_decode enc raw with
    | Some text => text
    | None => try_encodings rest raw
    end
  | [] => utf8_ignore raw
  end.

(** Lines 58-74: the hinted encoding first, unless it is 'auto'. *)
Definition decode_text (raw : bytes) (encoding : pystr) : pystr :=
  match
    (if bool_decide (encoding ≠ py "auto") then bytes_decode encoding raw
     else None)
  with
  | Some text => text
  | None => try_encodings CANDIDATES raw
  end.

(** The decoder inside [fetch] (lines 50-74). *)
Definition decode (raw : bytes) (encoding : pystr) : pystr :=
  decode_text (gunzip raw) encoding.

(** [session.get(url, headers=headers, timeout=15)] entered as a context
    manager: the request is issued, and the world's oracle answers. *)
Definition session_get (url : pystr) : M (Z * exc bytes) :=
  fun w =>
    let w' := record_event (EvGet url) (bump_reqs w) in
    match net w (reqs w) with
    | ConnRaises e => (Raise e, w')
    | Response status body => (Ok (status, body), w')
    end.

(** [await response.read()] *)
Definition response_read (body : exc bytes) : M bytes :=
  fun w =>
    match body with
    | Ok raw => (Ok raw, w)
    | Raise e => (Raise e, w)
    end.

(** [for i in range(RETRIES)], with [n] passes left. *)
Fixpoint fetch_loop (n : nat) (url encoding : pystr) : M (option pystr) :=
  match n with
  | O => ret None
  | S n' =>
    pass <~ try_except
      (resp <~ session_get url ;;
       if (fst resp =? 200)%Z then
         raw <~ response_read (snd resp) ;;
         ret (Returned (Some (decode raw encoding)))
       else
         ret (Returned None))
      (fun _ => ret FellThrough) ;;
    match pass with
    | Returned result => ret result
    | FellThrough => sleep 1000 ;; fetch_loop n' url encoding
    end
  end.

Definition fetch (url encoding : pystr) : M (option pystr) :=
  fetch_loop RETRIES url encoding.

Definition save_chapter (novel_dir : pystr) (chapter_idx : Z)
    (title content : pystr) : M unit :=
  let filename :=
    fmt04d chapter_idx ++ py "_" ++ clean_filename title ++ py ".txt" in
  let filepath := path_join novel_dir filename in
  try_except
    (open_w filepath ;;
     write filepath (title ++ NL ++ NL) ;;
     write filepath content)
    (fun _ => log_error).

(** Truthiness of what [.get()] returns: [None] and the empty string are
    falsy. *)
Definition truthy_opt (s : option pystr) : bool :=
  match s with
  | Some t => truthy t
  | None => false
  end.

(** Lines 105-112: the title and the content taken from the page. *)
Definition extract_title (rules : Rules) (html : pystr) : option pystr :=
  head (css_getall (chapter_title rules) html).

Definition extract_content (rules : Rules) (html : pystr) : pystr :=
  let content_lines := css_getall (chapter_content rules) html in
  join NL (map strip
             (List.filter (fun line => truthy (strip line)) content_lines)).

(** The body of [async with semaphore] in [download_chapter]. *)
Definition download_body (url : pystr) (idx : Z) (rules : Rules)
    (encoding novel_dir : pystr) : M unit :=
  html <~ fetch url encoding ;;
  if negb (truthy_opt html) then ret tt
  else
    let page := default [] html in
    let title := extract_title rules page in
    let content := extract_content rules page in
    (if truthy_opt title && truthy content
     then save_chapter novel_dir idx (default [] title) content
     else ret tt) ;;
    sleep DELAY.

(** [async with semaphore: ...]: the slot is given back however the body
    ends. *)
Definition download_chapter (url : pystr) (idx : Z) (rules : Rules)
    (encoding novel_dir : pystr) : M unit :=
  emit EvAcquire ;;
  try_finally (download_body url idx rules encoding novel_dir)
              (emit EvRelease).

(** One [asyncio.create_task(download_chapter(..., full_url, idx+1, ...))]. *)
Record Task := { task_url : pystr; task_idx : nat }.

(** Lines 177-189 of [main]: the loop over [enumerate(links)], with [idx]
    the position reached and [tasks] the list built so far. *)
Fixpoint task_loop (target attr : pystr) (idx : nat)
    (links : list (gmap (list N) (list N))) (tasks : list Task) : list Task :=
  match links with
  | [] => tasks
  | link :: rest =>
    let href := link !! attr in
    if negb (truthy_opt href) then task_loop target attr (idx + 1) rest tasks
    else
      let full_url := urljoin target (default [] href) in
      task_loop target attr (idx + 1) rest
                (tasks ++ [{| task_url := full_url; task_idx := idx + 1 |}])
  end.

Definition create_tasks (target : pystr) (rules : Rules) (toc_html : pystr)
    : list Task :=
  let links := css_elements (chapter_list rules) toc_html in
  task_loop target (chapter_link_attr rules) 0 links [].

End WithLibraries.
End Main.

(** ** The tasks of [asyncio.gather] under the semaphore *)

(** [download_chapter] suspends at [async with semaphore], inside [fetch],
    inside [save_chapter] and at [asyncio.sleep(DELAY)].  Between two
    suspension points a task runs alone, so the tasks of [main] interleave
    as the steps below. *)
Module Scheduler.

Inductive phase :=
| Pending          (* created, or waiting at [async with semaphore] *)
| Fetching         (* slot taken, inside [fetch] *)
| Persisting       (* page extracted, inside [save_chapter] *)
| Delaying         (* inside [asyncio.sleep(DELAY)] *)
| Finished.        (* slot given back, coroutine returned *)

(** [sem_value] is the semaphore's counter, [phases] has one entry per task. *)
Record sched := Sched { sem_value : nat; phases : list phase }.

(** The task is inside [async with semaphore]. *)
Definition holds_slot (p : phase) : bool :=
  match p with
  | Fetching | Persisting | Delaying => true
  | Pending | Finished => false
  end.

(** The task is past fetch-start and before persist-completion. *)
Definition in_flight (p : phase) : bool :=
  match p with
  | Fetching | Persisting => true
  | _ => false
  end.

Definition count (f : phase -> bool) (ps : list phase) : nat :=
  length (List.filter f ps).

Inductive step : sched -> sched -> Prop :=
| step_acquire n ps i :
    (* the counter is positive: __aenter__ takes a slot *)
    ps !! i = Some Pending ->
    step (Sched (S n) ps) (Sched n (<[i := Fetching]> ps))
| step_fetch_failed n ps i :
    (* [if not html: return]: __aexit__ runs at once *)
    ps !! i = Some Fetching ->
    step (Sched n ps) (Sched (S n) (<[i := Finished]> ps))
| step_extracted n ps i :
    (* title and content are truthy: [save_chapter] starts *)
    ps !! i = Some Fetching ->
    step (Sched n ps) (Sched n (<[i := Persisting]> ps))
| step_extract_failed n ps i :
    (* the else branch: nothing to save, on to the delay *)
    ps !! i = Some Fetching ->
    step (Sched n ps) (Sched n (<[i := Delaying]> ps))
| step_persisted n ps i :
    (* [save_chapter] returned, whether it wrote or logged a failure *)
    ps !! i = Some Persisting ->
    step (Sched n ps) (Sched n (<[i := Delaying]> ps))
| step_delay_over n ps i :
    (* the sleep is over: the block ends and __aexit__ releases *)
    ps !! i = Some Delaying ->
    step (Sched n ps) (Sched (S n) (<[i := Finished]> ps)).

(** [asyncio.Semaphore(limit)] and [jobs] tasks just created. *)
Definition init (limit jobs : nat) : sched :=
  Sched limit (repeat Pending jobs).

Definition reachable (limit jobs : nat) (s : sched) : Prop :=
  rtc step (init limit jobs) s.

End Scheduler.

(** ** Vocabulary of the statements *)

(** The [k]-th file operation from now fails. *)
Definition op_fails (w : world) (k : nat) : bool := io_fails w (k + ticks w).

(** Writing the chapter file fails: the open or one of its two writes. *)
Definition chapter_write_fails (w : world) : Prop :=
  op_fails w 0 = true \/ op_fails w 1 = true \/ op_fails w 2 = true.






(** The attempt ends in the handler of the outer try statement of [fetch]:
    the request raises, or the body of a 200 response cannot be read. *)
Definition attempt_raises (a : attempt) : bool :=
  match a with
  | ConnRaises _ => true
  | Response status (Raise _) => (status =? 200)%Z
  | Response _ (Ok _) => false
  end.

(** The events of [k] attempts that raised: each request is followed by the
    one-second sleep. *)
Fixpoint retried (url : pystr) (k : nat) : list event :=
  match k with
  | O => []
  | S k' => EvGet url :: EvSleep 1000 :: retried url k'
  end.

(** The world after one attempt that raised: the request was issued and the
    one-second sleep is over. *)
Definition retry_once (url : pystr) (w : world) : world :=
  record_event (EvSleep 1000) (record_event (EvGet url) (bump_reqs w)).

Fixpoint after_retries (url : pystr) (k : nat) (w : world) : world :=
  match k with
  | O => w
  | S k' => after_retries url k' (retry_once url w)
  end.

(** The first [k] attempts from now all raise. *)
Definition all_raise (w : world) (k : nat) : Prop :=
  forall i, (i < k)%nat -> attempt_raises (net w (reqs w + i)) = true.

(** The world after a request that was answered. *)
Definition answered (url : pystr) (w : world) : world :=
  record_event (EvGet url) (bump_reqs w).

(** A link carries a non-empty value for the attribute. *)
Definition has_href (attr : pystr) (link : gmap (list N) (list N)) : Prop :=
  exists href, link !! attr = Some href /\ href <> [].

(** A text block that is empty once trimmed. *)
Definition blank (block : pystr) : Prop := strip block = [].

Section SpecWording.
Context `{Libraries}.



(** The content as the specification words it: trim every block, drop the
    empty ones, join with a newline. *)
Definition content_spec (blocks : list pystr) : pystr :=
  join NL (List.filter truthy (map strip blocks)).

(** The task of the link at position [i] (from 0), if the link carries a
    non-empty value for the attribute. *)
Definition task_of_link (target attr : pystr) (i : nat)
    (link : gmap (list N) (list N)) : option Main.Task :=
  match link !! attr with
  | Some href =>
    if truthy href
    then Some {| Main.task_url := urljoin target href; Main.task_idx := i + 1 |}
    else None
  | None => None
  end.

End SpecWording.

(** ** Stand-ins for the libraries, to run the program on examples *)

(** A page is what the selectors find in it: the stand-in answers the query
    [h1] with [titles], any other query with [blocks], and finds [links]. *)
Definition ascii_only (raw : bytes) : bool :=
  forallb (fun b => (Byte.to_N b) <? 128) raw.

Definition page_libraries (titles blocks : list pystr)
    (links : list (gmap (list N) (list N))) : Libraries := {|
  css_getall query _ := if bool_decide (query = py "h1") then titles else blocks;
  css_elements _ _ := links;
  urljoin base href := base ++ href;
  gzip_decompress raw :=
    match raw with
    | _ :: _ :: x00 :: plain => Some plain
    | _ => None
    end;
  bytes_decode enc raw :=
    if bool_decide (enc = py "utf-8") && ascii_only raw
    then Some (map Byte.to_N raw) else None;
  utf8_ignore raw :=
    map Byte.to_N (List.filter (fun b => (Byte.to_N b) <? 128) raw)
|}.

Definition example_rules : Main.Rules := {|
  Main.chapter_list := py "a";
  Main.chapter_link_attr := py "href";
  Main.chapter_title := py "h1";
  Main.chapter_content := py "p"
|}.

(** A world with an empty disk, an empty index, a network that answers the
    requests with [script] in turn (and times out once the script is over)
    and file operations that fail from the [bad]-th on. *)
Definition example_world (script : list attempt) (bad : nat) : world := {|
  fs := ∅;
  index_file := NoFile;
  downloaded_chapters := ∅;
  net := fun k => default (ConnRaises TimeoutError) (script !! k);
  reqs := 0;
  io_fails := fun k => (bad <=? k)%nat;
  ticks := 0;
  trace := []
|}.

(** A world left by an earlier run: the chapter of url [u] is in the index
    and its file is on disk; the site answers with a page. *)
Definition resumed_world : world :=
  set_downloaded
    (fun _ => {[py "u" := Entry 1 (py "T") (py "0001_T.txt")]})
    (set_fs (fun _ => {[py "d/0001_T.txt" := py "T" ++ NL ++ NL ++ py "old"]})
            (example_world [Response 200 (Ok [x68])] 9)).

Definition example_handler : Storage.StorageHandler := {|
  Storage.novel_name := py "novel";
  Storage.author := py "Unknown";
  Storage.base_dir := py "downloads/[Unknown] novel";
  Storage.chapter_dir := py "downloads/[Unknown] novel/chapters";
  Storage.index_path := py "downloads/[Unknown] novel/index.json"
|}.

(** ** The rest of the program: metadata, rule lookup, the start of [main] *)

(** The [meta_info] dict of [main]: name, url, total_chapters, status. *)
Record MetaInfo := {
  meta_name : pystr;
  meta_url : pystr;
  total_chapters : nat;
  meta_status : pystr
}.

(** The text [json.dump(meta_info, f, ensure_ascii=False, indent=2)] writes. *)
Class JsonDump := { json_dump_meta : MetaInfo -> pystr }.

(** [urlparse(url).netloc] *)
Class UrlParse := { netloc : pystr -> pystr }.

Module Meta.
Section WithJson.
Context `{JsonDump}.

(** [StorageHandler.save_meta] (storage.py 49-57).  The text of the dump is
    written in one piece. *)
Definition save_meta (self : Storage.StorageHandler) (meta_info : MetaInfo)
    : M unit :=
  let path := path_join (Storage.base_dir self) (py "meta.json") in
  try_except
    (open_w path ;;
     write path (json_dump_meta meta_info) ;;
     log_info)
    (fun _ => log_error).

End WithJson.
End Meta.

(** rule_manager.py *)
Module RuleManager.

(** One entry of sites.yaml.  [domains] may be missing ([site.get('domains',
    [])]); name and rules are read with [site[...]] and are taken as
    present. *)
Record Site := {
  site_name : pystr;
  domains : option (list pystr);
  site_rules : Main.Rules;
  site_encoding : option pystr
}.

(** What [open] and [yaml.safe_load] make of the configuration file. *)
Inductive config_file :=
| Unloadable                              (* open or safe_load raises *)
| Loaded (sites : list Site).

Definition _load_config (config : config_file) : list Site :=
  match config with
  | Unloadable => []
  | Loaded sites => sites
  end.

(** The loop [for site in self.sites] of [get_rule_by_url]. *)
Fixpoint find_site (domain : pystr) (sites : list Site) : option Site :=
  match sites with
  | [] => None
  | site :: rest =>
    if bool_decide (domain ∈ default [] (domains site)) then Some site
    else find_site domain rest
  end.

Definition get_rule_by_url `{UrlParse} (sites : list Site) (url : pystr)
    : option Site :=
  let domain := netloc url in
  find_site domain sites.

End RuleManager.

(** [main] of main.py from its start to the creation of the tasks (lines
    122-189); [asyncio.gather] over the tasks is the business of
    [Scheduler]. *)
Module Orchestrator.

Definition TARGET_URL : pystr := py "https://www.mnwx.cc/book/419057/".
Definition NOVEL_NAME : pystr :=
  [25105; 30340; 19968; 20301; 20185; 23376; 36947; 21451].


Section WithLibraries.
Context `{Libraries} `{UrlParse} `{JsonDump}.

(** The result is [None] where [main] returns early, and the tasks handed to
    [asyncio.gather] otherwise (with no task, [main] only prints a
    warning). *)
Definition main_setup (config : RuleManager.config_file)
    : M (option (list Main.Task)) :=
  let sites := RuleManager._load_config config in
  match RuleManager.get_rule_by_url sites TARGET_URL with
  | None => ret None
  | Some site_config =>
    let rules := RuleManager.site_rules site_config in
    let novel_dir := path_join (py "downloads") NOVEL_NAME in
    Storage.makedirs novel_dir ;;
    toc_html <~ Main.fetch TARGET_URL (py "auto") ;;
    if negb (Main.truthy_opt toc_html) then ret None
    else
      let page := default [] toc_html in
      let links := css_elements (Main.chapter_list rules) page in
      let meta_info := {|
        meta_name := NOVEL_NAME;
        meta_url := TARGET_URL;
        total_chapters := length links;
        meta_status := py "downloading"
      |} in
      let meta_path := path_join novel_dir (py "meta.json") in
      open_w meta_path ;;
      write meta_path (json_dump_meta meta_info) ;;
      ret (Some (Main.create_tasks TARGET_URL rules page))
  end.

End WithLibraries.
End Orchestrator.

(** ** Vocabulary of the further statements *)

(** Python's [<] on [str]: lexicographic on code points, the order in which
    file names sort. *)
Fixpoint str_ltb (a b : pystr) : bool :=
  match a, b with
  | _, [] => false
  | [], _ :: _ => true
  | x :: a', y :: b' => (x <? y) || ((x =? y) && str_ltb a' b')
  end.

(** What a task still has to go through: the suspension points ahead. *)
Definition steps_left (p : Scheduler.phase) : nat :=
  match p with
  | Scheduler.Pending => 4
  | Scheduler.Fetching => 3
  | Scheduler.Persisting => 2
  | Scheduler.Delaying => 1
  | Scheduler.Finished => 0
  end.

Definition work_left (s : Scheduler.sched) : nat :=
  sum_list (map steps_left (Scheduler.phases s)).

(** No task can move. *)
Definition quiescent (s : Scheduler.sched) : Prop :=
  forall s', ~ Scheduler.step s s'.

(** Stand-ins for the two further libraries: the host is what lies between
    the eighth character and the next slash, and the dump is the name, a
    comma and the status. *)
Fixpoint until_slash (s : pystr) : pystr :=
  match s with
  | c :: s' => if c =? 47 then [] else c :: until_slash s'
  | [] => []
  end.

Definition example_url_parse : UrlParse := {|
  netloc url := until_slash (drop 8 url)
|}.

Definition example_json_dump : JsonDump := {|
  json_dump_meta meta := meta_name meta ++ py "," ++ meta_status meta
|}.

Definition example_site : RuleManager.Site := {|
  RuleManager.site_name := py "mnwx";
  RuleManager.domains := Some [py "www.mnwx.cc"];
  RuleManager.site_rules := example_rules;
  RuleManager.site_encoding := None
|}.

(** * Properties *)

(** ** Strings *)

Lemma lstrip_length (s : pystr) : (length (lstrip s) <= length s)%nat.
Proof.
  induction s as [|c s IH]; simpl; [lia|].
  destruct (isspace c); simpl; lia.
Qed.

Lemma rstrip_length (s : pystr) : (length (rstrip s) <= length s)%nat.
Proof.
  unfold rstrip. rewrite length_rev.
  etransitivity; [apply lstrip_length|]. by rewrite length_rev.
Qed.

Lemma strip_length (s : pystr) : (length (strip s) <= length s)%nat.
Proof.
  unfold strip. etransitivity; [apply rstrip_length|apply lstrip_length].
Qed.

Lemma re_sub_illegal_length (s : pystr) :
  (length (re_sub_illegal s) <= length s)%nat.
Proof.
  induction s as [|c s IH]; simpl; [lia|].
  destruct (illegal_char c); simpl; lia.
Qed.

Lemma re_sub_illegal_shrinks (s : pystr) (c : N) :
  c ∈ s -> illegal_char c = true ->
  (length (re_sub_illegal s) < length s)%nat.
Proof.
  intros Hin Hc. induction Hin as [c s|c d s Hin IH]; simpl.
  - rewrite Hc. simpl. pose proof (re_sub_illegal_length s). lia.
  - specialize (IH Hc). destruct (illegal_char d); simpl; lia.
Qed.

Lemma re_sub_illegal_app (s t : pystr) :
  re_sub_illegal (s ++ t) = re_sub_illegal s ++ re_sub_illegal t.
Proof. unfold re_sub_illegal. apply List.filter_app. Qed.

(** No whitespace character is in the deleted class. *)
Lemma isspace_not_illegal (c : N) : isspace c = true -> illegal_char c = false.
Proof.
  unfold isspace, illegal_char. intros Hs.
  repeat (apply orb_false_intro); apply N.eqb_neq; intros ->; discriminate Hs.
Qed.

Lemma rstrip_snoc_space (s : pystr) (c : N) :
  isspace c = true -> rstrip (s ++ [c]) = rstrip s.
Proof.
  intros Hc. unfold rstrip. rewrite rev_app_distr. simpl. by rewrite Hc.
Qed.

Lemma lstrip_snoc (s : pystr) (c : N) :
  lstrip (s ++ [c]) = lstrip [c] \/ lstrip (s ++ [c]) = lstrip s ++ [c].
Proof.
  induction s as [|d s IH]; simpl; [by left|].
  destruct (isspace d); [exact IH|by right].
Qed.

Lemma strip_leading_space (c : N) (s : pystr) :
  isspace c = true -> (length (strip (c :: s)) <= length s)%nat.
Proof.
  intros Hc. unfold strip. simpl. rewrite Hc. apply strip_length.
Qed.

Lemma strip_trailing_space (s : pystr) (c : N) :
  isspace c = true -> (length (strip (s ++ [c])) <= length s)%nat.
Proof.
  intros Hc. unfold strip.
  destruct (lstrip_snoc s c) as [-> | ->].
  - simpl. rewrite Hc. simpl. lia.
  - rewrite rstrip_snoc_space by done.
    etransitivity; [apply rstrip_length|apply lstrip_length].
Qed.
(** ** The monad on concrete steps *)

Ltac io_simpl :=
  cbv beta iota zeta delta
    [run Storage.save_chapter Main.save_chapter try_except try_finally bind
     ret raise open_w write file_op Storage.index_set Storage.dump_index
     log_info log_error emit sleep];
  cbn [fs index_file downloaded_chapters net reqs io_fails ticks trace
       set_fs set_index_file set_downloaded bump_reqs bump_ticks record_event
       fst snd].

(** Case analysis on the next file operation the run depends on. *)
Ltac io_case :=
  io_simpl;
  match goal with
  | |- context [io_fails ?w ?k] =>
    let F := fresh "Hop" in destruct (io_fails w k) eqn:F
  end.

Ltac io_cases := repeat io_case; io_simpl.

Lemma op_fails_unfold (w : world) :
  op_fails w 0 = io_fails w (ticks w)
  /\ op_fails w 1 = io_fails w (S (ticks w))
  /\ op_fails w 2 = io_fails w (S (S (ticks w)))
  /\ op_fails w 3 = io_fails w (S (S (S (ticks w))))
  /\ op_fails w 4 = io_fails w (S (S (S (S (ticks w))))).
Proof. by repeat split. Qed.

Ltac op_norm :=
  repeat match goal with
  | H : context [op_fails ?w _] |- _ =>
    destruct (op_fails_unfold w) as (?E0 & ?E1 & ?E2 & ?E3 & ?E4);
    rewrite ?E0, ?E1, ?E2, ?E3, ?E4 in *; clear E0 E1 E2 E3 E4
  end.

Lemma re_sub_illegal_cons_space (c : N) (s : pystr) :
  isspace c = true -> re_sub_illegal (c :: s) = c :: re_sub_illegal s.
Proof.
  intros Hc. unfold re_sub_illegal. cbn [List.filter].
  by rewrite (isspace_not_illegal _ Hc).
Qed.

Lemma clean_str_changes (title : pystr) :
  (exists c, c ∈ title /\ illegal_char c = true)
  \/ (exists c rest, title = c :: rest /\ isspace c = true)
  \/ (exists c front, title = front ++ [c] /\ isspace c = true) ->
  Storage._clean_str title <> title.
Proof.
  intros Hcase Heq.
  assert (length (Storage._clean_str title) < length title)%nat as Hlt;
    [|rewrite Heq in Hlt; lia].
  clear Heq. unfold Storage._clean_str.
  destruct Hcase as [(c & Hin & Hc) | [(c & rest & -> & Hc) | (c & front & -> & Hc)]].
  - destruct title as [|d title]; [by apply elem_of_nil in Hin|]. cbn [truthy].
    pose proof (strip_length (re_sub_illegal (d :: title))).
    pose proof (re_sub_illegal_shrinks _ _ Hin Hc). lia.
  - cbn [truthy]. rewrite re_sub_illegal_cons_space by done.
    pose proof (strip_leading_space c (re_sub_illegal rest) Hc).
    pose proof (re_sub_illegal_length rest). cbn [length]. clear Hc. lia.
  - replace (truthy (front ++ [c])) with true by (by destruct front).
    rewrite re_sub_illegal_app.
    rewrite (re_sub_illegal_cons_space c []) by done.
    pose proof (strip_trailing_space (re_sub_illegal front) c Hc).
    pose proof (re_sub_illegal_length front).
    rewrite length_app. cbn [length]. change (re_sub_illegal []) with (@nil N).
    clear Hc. lia.
Qed.

(** C9.  After a [save_chapter] whose file operations all succeed, the
    chapter file holds the raw title, two newlines and the content, while the
    entry put in the index, in memory and in [index.json], holds the cleaned
    title.  So whenever the title has one of the deleted characters or
    leading or trailing whitespace, the title in [index.json] differs from
    the title in the chapter file. *)
Theorem save_chapter_raw_title_in_file self idx title content url w :
  (forall k, (k < 5)%nat -> op_fails w k = false) ->
  let w' := (run (Storage.save_chapter self idx title content url) w).2 in
  fs w' !! Storage.chapter_filepath self idx title
    = Some (title ++ NL ++ NL ++ content)
  /\ downloaded_chapters w' !! url
    = Some (Entry idx (Storage._clean_str title)
                  (Storage.chapter_filename idx title))
  /\ index_file w' = Stored (downloaded_chapters w')
  /\ ((exists c, c ∈ title /\ illegal_char c = true)
      \/ (exists c rest, title = c :: rest /\ isspace c = true)
      \/ (exists c front, title = front ++ [c] /\ isspace c = true) ->
      forall m e, index_file w' = Stored m -> m !! url = Some e ->
        e_title e <> title).
Proof.
  intros Hok.
  pose proof (Hok 0%nat ltac:(lia)) as H0.
  pose proof (Hok 1%nat ltac:(lia)) as H1.
  pose proof (Hok 2%nat ltac:(lia)) as H2.
  pose proof (Hok 3%nat ltac:(lia)) as H3.
  pose proof (Hok 4%nat ltac:(lia)) as H4.
  clear Hok. op_norm.
  io_simpl. rewrite H0. io_simpl. rewrite H1. io_simpl. rewrite H2. io_simpl.
  rewrite H3. io_simpl. rewrite H4. io_simpl.
  unfold Storage.chapter_filepath, Storage.chapter_filename.
  repeat split.
  - rewrite !lookup_insert_eq. simpl. by rewrite <- !app_assoc.
  - by rewrite lookup_insert_eq.
  - intros Hcase m e [= <-]. rewrite lookup_insert_eq. intros [= <-].
    simpl. by apply clean_str_changes.
Qed.




(** C7, as the code has it.  Neither [save_chapter] ever raises: whatever
    file operation fails, the call returns normally, as it does on success,
    and the failure is only logged, the error record being the last event of
    the call. *)
Theorem save_chapter_swallows_failures self novel_dir idx title content url w :
  let stored := run (Storage.save_chapter self idx title content url) w in
  let written := run (Main.save_chapter novel_dir idx title content) w in
  stored.1 = Ok tt
  /\ written.1 = Ok tt
  /\ ((exists k, (k < 5)%nat /\ op_fails w k = true) ->
      last (trace stored.2) = Some EvLogError)
  /\ (chapter_write_fails w -> last (trace written.2) = Some EvLogError).
Proof.
  repeat split.
  - io_cases; reflexivity.
  - io_cases; reflexivity.
  - intros (k & Hk & Hf).
    assert (k = 0 \/ k = 1 \/ k = 2 \/ k = 3 \/ k = 4)%nat
      as [-> | [-> | [-> | [-> | ->]]]] by lia;
      op_norm; io_cases; rewrite ?last_snoc; congruence.
  - intros [Hf | [Hf | Hf]]; op_norm; io_cases; rewrite ?last_snoc;
      congruence.
Qed.





(** C10.  When [index.json] is missing, unreadable or no JSON document,
    [_load_index] returns the empty dictionary without raising and leaves the
    world alone; a handler built then (its [makedirs] succeeding) starts with
    the empty dictionary, and [is_downloaded] is false for every url. *)
Theorem load_index_defaults_to_empty w :
  index_file w = NoFile \/ index_file w = Unreadable
  \/ index_file w = Malformed ->
  run Storage._load_index w = (Ok ∅, w)
  /\ forall name auth, op_fails w 0 = false ->
       let built := run (Storage.__init__ name auth) w in
       (exists handler, built.1 = Ok handler)
       /\ downloaded_chapters built.2 = ∅
       /\ forall url, (run (Storage.is_downloaded url) built.2).1 = Ok false.
Proof.
  intros Hfile.
  assert (forall v, index_file v = index_file w ->
            run Storage._load_index v = (Ok ∅, v)) as Hload.
  { intros v Hv.
    cbv beta iota zeta delta
      [run Storage._load_index Storage.index_exists Storage.read_index_json
       try_except bind ret].
    rewrite Hv.
    destruct Hfile as [Hf | [Hf | Hf]]; rewrite Hf in *; cbn; rewrite ?Hv;
      reflexivity. }
  split; [by apply Hload|].
  intros name auth Hmk. unfold op_fails in Hmk. simpl in Hmk.
  cbv beta iota zeta delta [run Storage.__init__ Storage.makedirs file_op bind].
  rewrite Hmk. unfold run in Hload. rewrite (Hload (bump_ticks w)) by done.
  cbn. repeat split; eauto.
Qed.

Lemma save_chapter_raw_title_in_file_witness :
  let w := example_world [] 9 in
  let title := py " a:b" in
  (forall k, (k < 5)%nat -> op_fails w k = false)
  /\ forall m e,
       index_file (run (Storage.save_chapter example_handler 1 title
                          (py "text") (py "u")) w).2 = Stored m ->
       m !! py "u" = Some e -> e_title e <> title.
Proof.
  intros w title.
  assert (forall k, (k < 5)%nat -> op_fails w k = false) as Hok.
  { intros k Hk. do 5 (destruct k as [|k]; [reflexivity|]). lia. }
  split; [exact Hok|].
  apply (save_chapter_raw_title_in_file example_handler 1 title (py "text")
           (py "u") w Hok).
  left. exists 58. split; [|reflexivity].
  apply list_elem_of_In. vm_compute. tauto.
Defined.

(** ** fetch *)

Ltac not_in_events :=
  repeat (apply not_elem_of_cons; split; [discriminate|]);
  try apply not_elem_of_nil; try assumption.


Section Fetch.
Context `{Libraries}.
Variables url encoding : pystr.

Lemma fetch_loop_raised n w :
  attempt_raises (net w (reqs w)) = true ->
  Main.fetch_loop (S n) url encoding w
  = Main.fetch_loop n url encoding (retry_once url w).
Proof.
  intros Hr. cbn [Main.fetch_loop].
  cbv beta iota zeta delta
    [bind try_except ret sleep emit Main.session_get Main.response_read].
  destruct (net w (reqs w)) as [e | status [raw | e]]; simpl in Hr;
    [reflexivity|discriminate|].
  cbn [fst snd]. by rewrite Hr.
Qed.

Lemma fetch_loop_bad_status n w status body :
  net w (reqs w) = Response status body -> status <> 200%Z ->
  Main.fetch_loop (S n) url encoding w = (Ok None, answered url w).
Proof.
  intros Hnet Hst. cbn [Main.fetch_loop].
  cbv beta iota zeta delta
    [bind try_except ret sleep emit Main.session_get Main.response_read].
  rewrite Hnet. cbn [fst snd].
  by apply Z.eqb_neq in Hst as ->.
Qed.

Lemma fetch_loop_ok n w raw :
  net w (reqs w) = Response 200 (Ok raw) ->
  Main.fetch_loop (S n) url encoding w
  = (Ok (Some (Main.decode raw encoding)), answered url w).
Proof.
  intros Hnet. cbn [Main.fetch_loop].
  cbv beta iota zeta delta
    [bind try_except ret sleep emit Main.session_get Main.response_read].
  by rewrite Hnet.
Qed.

Lemma after_retries_fields k : forall w,
  fs (after_retries url k w) = fs w
  /\ index_file (after_retries url k w) = index_file w
  /\ downloaded_chapters (after_retries url k w) = downloaded_chapters w
  /\ net (after_retries url k w) = net w
  /\ reqs (after_retries url k w) = (reqs w + k)%nat
  /\ io_fails (after_retries url k w) = io_fails w
  /\ ticks (after_retries url k w) = ticks w
  /\ trace (after_retries url k w) = trace w ++ retried url k.
Proof.
  induction k as [|k IH]; intros w; cbn [after_retries retried].
  - rewrite app_nil_r, Nat.add_0_r. by repeat split.
  - destruct (IH (retry_once url w)) as (-> & -> & -> & -> & -> & -> & -> & ->).
    cbn. rewrite <- !app_assoc. repeat split; try done; lia.
Qed.

Lemma fetch_loop_retried k : forall n w,
  all_raise w k ->
  Main.fetch_loop (k + n) url encoding w
  = Main.fetch_loop n url encoding (after_retries url k w).
Proof.
  induction k as [|k IH]; intros n w Hr; [done|].
  cbn [Nat.add after_retries]. rewrite fetch_loop_raised.
  - apply IH. intros i Hi. cbn. specialize (Hr (S i) ltac:(lia)).
    by rewrite Nat.add_succ_r in Hr.
  - specialize (Hr 0%nat ltac:(lia)). by rewrite Nat.add_0_r in Hr.
Qed.

(** [fetch] never raises and touches neither the disk nor the index. *)
Lemma fetch_loop_frame n : forall w,
  let out := Main.fetch_loop n url encoding w in
  (exists result, out.1 = Ok result)
  /\ fs out.2 = fs w /\ index_file out.2 = index_file w
  /\ downloaded_chapters out.2 = downloaded_chapters w
  /\ io_fails out.2 = io_fails w /\ ticks out.2 = ticks w
  /\ (exists events,
        trace out.2 = trace w ++ events
        /\ (n <> 0%nat -> exists later, events = EvGet url :: later)
        /\ (EvAcquire ∉ events) /\ (EvRelease ∉ events)).
Proof.
  induction n as [|n IH]; intros w; cbv zeta in *.
  - cbn. repeat split; eauto. exists []. rewrite app_nil_r.
    repeat split; try done; not_in_events.
  - destruct (attempt_raises (net w (reqs w))) eqn:Hr.
    + rewrite fetch_loop_raised by done.
      destruct (IH (retry_once url w))
        as (Hres & -> & -> & -> & -> & -> & events & -> & _ & Ha & Hrel).
      cbn. repeat split; try done.
      exists (EvGet url :: EvSleep 1000 :: events).
      rewrite <- !app_assoc. repeat split; eauto; not_in_events.
    + destruct (net w (reqs w)) as [e | status [raw | e]] eqn:Hnet;
        simpl in Hr; try discriminate.
      * destruct (decide (status = 200%Z)) as [-> | Hst].
        -- rewrite (fetch_loop_ok n w raw) by done. cbn.
           repeat split; eauto. exists [EvGet url].
           repeat split; eauto; not_in_events.
        -- rewrite (fetch_loop_bad_status n w status (Ok raw)) by done. cbn.
           repeat split; eauto. exists [EvGet url].
           repeat split; eauto; not_in_events.
      * apply Z.eqb_neq in Hr.
        rewrite (fetch_loop_bad_status n w status (Raise e)) by done. cbn.
        repeat split; eauto. exists [EvGet url].
        repeat split; eauto; not_in_events.
Qed.

Lemma first_settled_attempt w n :
  all_raise w n
  \/ exists k, (k < n)%nat /\ all_raise w k
       /\ attempt_raises (net w (reqs w + k)) = false.
Proof.
  induction n as [|n [Hall | (k & Hk & Hall & Hset)]].
  - left. intros i Hi. lia.
  - destruct (attempt_raises (net w (reqs w + n))) eqn:Hn.
    + left. intros i Hi. destruct (decide (i = n)) as [-> | Hne]; [done|].
      apply Hall. lia.
    + right. exists n. split; [lia|done].
  - right. exists k. split; [lia|done].
Qed.



End Fetch.



(** ** The decoder *)

Section Decoder.
Context `{Libraries}.







End Decoder.


(** ** Extraction and persistence in [download_chapter] *)

Lemma join_nonempty_parts (parts : list pystr) :
  Forall (fun p => truthy p = true) parts -> join NL parts = [] -> parts = [].
Proof.
  intros Hparts Hjoin. destruct Hparts as [|p rest Hp _]; [done|].
  destruct p as [|c p]; [discriminate Hp|].
  destruct rest; discriminate Hjoin.
Qed.

Lemma content_spec_filter (blocks : list pystr) :
  map strip (List.filter (fun line => truthy (strip line)) blocks)
  = List.filter truthy (map strip blocks).
Proof.
  induction blocks as [|b blocks IH]; [done|].
  cbn. destruct (truthy (strip b)); cbn; by rewrite IH.
Qed.

Lemma content_spec_empty (blocks : list pystr) :
  content_spec blocks = [] <-> Forall blank blocks.
Proof.
  unfold content_spec, blank. split.
  - intros Hjoin. apply join_nonempty_parts in Hjoin.
    + induction blocks as [|b blocks IH]; [constructor|].
      cbn in Hjoin. destruct (strip b) eqn:Hb; [|discriminate Hjoin].
      constructor; [done|]. by apply IH.
    + apply List.Forall_forall. intros p Hp.
      by apply List.filter_In in Hp as [_ Hp].
  - intros Hall. induction Hall as [|b blocks Hb _ IH]; [done|].
    cbn. by rewrite Hb.
Qed.

Section Download.
Context `{Libraries}.
Variables (url : pystr) (idx : Z) (rules : Main.Rules).
Variables encoding novel_dir : pystr.

Lemma extract_content_spec (html : pystr) :
  Main.extract_content rules html
  = content_spec (css_getall (Main.chapter_content rules) html).
Proof. unfold Main.extract_content, content_spec. by rewrite content_spec_filter. Qed.

Lemma download_body_after_fetch w html w1 :
  run (Main.fetch url encoding) w = (Ok (Some html), w1) ->
  truthy html = true ->
  run (Main.download_body url idx rules encoding novel_dir) w
  = run ((if Main.truthy_opt (Main.extract_title rules html)
             && truthy (Main.extract_content rules html)
          then Main.save_chapter novel_dir idx
                 (default [] (Main.extract_title rules html))
                 (Main.extract_content rules html)
          else ret tt) ;; sleep Main.DELAY) w1.
Proof.
  intros Hfetch Hhtml. unfold run in *. unfold Main.download_body.
  unfold bind at 1. rewrite Hfetch. cbn [Main.truthy_opt default].
  by rewrite Hhtml.
Qed.

(** C6.  The title is the first match of the title selector, as it is; the
    content is the trimmed, non-empty blocks joined by a newline.  When the
    title is missing or every block is blank, the job only sleeps: no file
    operation happens, and disk and index are as before.  Otherwise
    [save_chapter] is called with that title and content. *)
Theorem extraction_gates_persistence w html w1 :
  run (Main.fetch url encoding) w = (Ok (Some html), w1) ->
  truthy html = true ->
  let title := head (css_getall (Main.chapter_title rules) html) in
  let blocks := css_getall (Main.chapter_content rules) html in
  let out := run (Main.download_body url idx rules encoding novel_dir) w in
  Main.extract_title rules html = title
  /\ Main.extract_content rules html = content_spec blocks
  /\ (content_spec blocks = [] <-> Forall blank blocks)
  /\ (title = None \/ Forall blank blocks ->
        out = run (sleep Main.DELAY) w1
        /\ fs out.2 = fs w /\ ticks out.2 = ticks w
        /\ index_file out.2 = index_file w
        /\ downloaded_chapters out.2 = downloaded_chapters w)
  /\ (forall t, title = Some t -> t <> [] -> ~ Forall blank blocks ->
        out = run (Main.save_chapter novel_dir idx t (content_spec blocks) ;;
                   sleep Main.DELAY) w1).
Proof.
  intros Hfetch Hhtml title blocks out.
  pose proof (download_body_after_fetch w html w1 Hfetch Hhtml) as Hbody.
  fold out in Hbody. rewrite extract_content_spec in Hbody.
  fold blocks in Hbody. change (Main.extract_title rules html) with title in Hbody.
  split; [done|]. split; [apply extract_content_spec|].
  split; [apply content_spec_empty|]. split.
  - intros Hfail.
    assert (Main.truthy_opt title && truthy (content_spec blocks) = false)
      as Hgate.
    { destruct Hfail as [-> | Hblank]; [done|].
      apply content_spec_empty in Hblank as ->. apply andb_false_r. }
    rewrite Hgate in Hbody.
    assert (out = run (sleep Main.DELAY) w1) as Hout by (by rewrite Hbody).
    split; [exact Hout|]. rewrite Hout.
    destruct (fetch_loop_frame url encoding Main.RETRIES w)
      as (_ & Hfs & Hix & Hdl & _ & Htk & _).
    unfold run, Main.fetch in Hfetch. rewrite Hfetch in Hfs, Hix, Hdl, Htk.
    by cbn in *.
  - intros t Ht Hne Hblocks.
    assert (Main.truthy_opt title && truthy (content_spec blocks) = true)
      as Hgate.
    { rewrite Ht. cbn. apply andb_true_iff. split.
      - by destruct t.
      - destruct (content_spec blocks) eqn:Hc; [|done].
        by apply content_spec_empty in Hc. }
    rewrite Hgate, Ht in Hbody. exact Hbody.
Qed.

(** The events of one [download_chapter]: the slot is taken first and given
    back last. *)
Lemma save_chapter_frame title content w :
  let out := run (Main.save_chapter novel_dir idx title content) w in
  out.1 = Ok tt
  /\ exists events, trace out.2 = trace w ++ events
       /\ (EvAcquire ∉ events) /\ (EvRelease ∉ events)
       /\ (EvSleep Main.DELAY ∉ events).
Proof.
  cbv zeta. io_cases; (split; [done|]); eexists;
    rewrite <- ?app_assoc; (split; [try done; by rewrite app_nil_r|]);
    repeat split; not_in_events.
Qed.

End Download.

Lemma extraction_gates_persistence_witness :
  let L := page_libraries [py "Chapter 1"] [py "  "; [9; 10]] [] in
  let w := example_world [Response 200 (Ok [x68])] 0 in
  let out :=
    run (Main.download_body (py "u") 1 example_rules (py "auto") (py "d")) w in
  (run (Main.fetch (py "u") (py "auto")) w = (Ok (Some (py "h")), answered (py "u") w)
   /\ truthy (py "h") = true
   /\ Forall blank (css_getall (Main.chapter_content example_rules) (py "h")))
  /\ fs out.2 = fs w /\ ticks out.2 = ticks w
  /\ index_file out.2 = index_file w.
Proof.
  intros L w out.
  assert (run (Main.fetch (py "u") (py "auto")) w
          = (Ok (Some (py "h")), answered (py "u") w)
          /\ truthy (py "h") = true
          /\ Forall blank (css_getall (Main.chapter_content example_rules) (py "h")))
    as Hyp.
  { split; [reflexivity|]. split; [reflexivity|].
    repeat constructor. }
  split; [exact Hyp|]. destruct Hyp as (Hfetch & Hhtml & Hblank).
  destruct (extraction_gates_persistence (py "u") 1 example_rules (py "auto")
              (py "d") w (py "h") (answered (py "u") w) Hfetch Hhtml)
    as (_ & _ & _ & Hfail & _).
  destruct (Hfail (or_intror Hblank)) as (_ & Hfs & Htk & Hix & _).
  split; [exact Hfs|]. split; [exact Htk|exact Hix].
Defined.

(** ** The task loop of [main] *)

Section Tasks.
Context `{Libraries}.
Variables target attr : pystr.

Lemma task_loop_step (k : nat) (link : gmap (list N) (list N))
    (rest : list (gmap (list N) (list N))) (tasks : list Main.Task) :
  Main.task_loop target attr k (link :: rest) tasks
  = Main.task_loop target attr (k + 1) rest
      (tasks ++ option_list (task_of_link target attr k link)).
Proof.
  cbn [Main.task_loop]. unfold task_of_link.
  destruct (link !! attr) as [href|]; cbn.
  - destruct (truthy href); cbn; [done|by rewrite app_nil_r].
  - by rewrite app_nil_r.
Qed.

Lemma task_loop_spec (links : list (gmap (list N) (list N))) :
  forall k tasks,
    Main.task_loop target attr k links tasks
    = tasks ++ omap id (imap (fun i => task_of_link target attr (k + i)) links).
Proof.
  induction links as [|link rest IH]; intros k tasks.
  - cbn. by rewrite app_nil_r.
  - rewrite task_loop_step, IH. cbn [imap omap]. rewrite Nat.add_0_r.
    rewrite <- app_assoc. f_equal.
    assert (imap ((fun i => task_of_link target attr (k + i)) ∘ S) rest
            = imap (fun i => task_of_link target attr (k + 1 + i)) rest) as ->.
    { apply imap_ext. intros i x _. cbn. f_equal. lia. }
    unfold id at 2. by destruct (task_of_link target attr k link).
Qed.

Lemma task_of_link_has (i : nat) (link : gmap (list N) (list N)) :
  has_href attr link ->
  Main.task_idx <$> task_of_link target attr i link = Some (i + 1)%nat.
Proof.
  intros (href & Hl & Hne). unfold task_of_link. rewrite Hl.
  by destruct href.
Qed.

Lemma task_of_link_lacks (i : nat) (link : gmap (list N) (list N)) :
  link !! attr = None -> task_of_link target attr i link = None.
Proof. intros Hl. unfold task_of_link. by rewrite Hl. Qed.

End Tasks.

(** C3, as the code has it.  The tasks are the links that carry a non-empty
    value for the link attribute, in discovery order, and each is numbered
    with the 1-based position of its link among all matched links: a skipped
    link consumes its number.  Of three links with one lacking the attribute
    two tasks are made, numbered 2 and 3, 1 and 3, or 1 and 2. *)
Theorem tasks_numbered_by_position `{Libraries} (target : pystr)
    (rules : Main.Rules) (toc_html : pystr) :
  let links := css_elements (Main.chapter_list rules) toc_html in
  let attr := Main.chapter_link_attr rules in
  let tasks := Main.create_tasks target rules toc_html in
  tasks = omap id (imap (task_of_link target attr) links)
  /\ (forall a b c, links = [a; b; c] ->
       (a !! attr = None -> has_href attr b -> has_href attr c ->
          map Main.task_idx tasks = [2; 3]%nat)
       /\ (has_href attr a -> b !! attr = None -> has_href attr c ->
          map Main.task_idx tasks = [1; 3]%nat)
       /\ (has_href attr a -> has_href attr b -> c !! attr = None ->
          map Main.task_idx tasks = [1; 2]%nat)).
Proof.
  intros links attr tasks.
  assert (tasks = omap id (imap (task_of_link target attr) links)) as Hspec.
  { unfold tasks, Main.create_tasks. fold links. fold attr.
    by rewrite task_loop_spec. }
  split; [exact Hspec|]. intros a b c Hlinks. rewrite Hspec, Hlinks.
  cbn [imap omap compose].
  repeat split; intros Ha Hb Hc;
    repeat match goal with
    | Hl : _ !! attr = None |- _ =>
      rewrite (task_of_link_lacks target attr _ _ Hl); clear Hl
    | Hh : has_href attr ?l |- context [task_of_link target attr ?i ?l] =>
      let T := fresh "T" in
      pose proof (task_of_link_has target attr i l Hh) as T;
      destruct (task_of_link target attr i l); [|discriminate T];
      injection T as T
    end; cbn; congruence.
Qed.

Lemma tasks_numbered_by_position_witness :
  let L := page_libraries [] []
             [∅; {[py "href" := py "/1"]}; {[py "href" := py "/2"]}] in
  let tasks := Main.create_tasks (py "http://x") example_rules (py "toc") in
  ((∅ : gmap (list N) (list N)) !! py "href" = None
   /\ has_href (py "href") {[py "href" := py "/1"]}
   /\ has_href (py "href") {[py "href" := py "/2"]})
  /\ map Main.task_idx tasks = [2; 3]%nat.
Proof.
  intros L tasks.
  assert ((∅ : gmap (list N) (list N)) !! py "href" = None
          /\ has_href (py "href") {[py "href" := py "/1"]}
          /\ has_href (py "href") {[py "href" := py "/2"]}) as Hyp.
  { split; [reflexivity|].
    split; eexists; (split; [apply lookup_singleton_eq|discriminate]). }
  split; [exact Hyp|]. destruct Hyp as (Ha & Hb & Hc).
  destruct (tasks_numbered_by_position (py "http://x") example_rules (py "toc"))
    as (_ & Hthree).
  destruct (Hthree _ _ _ eq_refl) as (Hfirst & _).
  exact (Hfirst Ha Hb Hc).
Defined.

Lemma skipped_link_consumes_index :
  ~ (forall (L : Libraries) (target : pystr) (rules : Main.Rules)
            (toc_html : pystr) (a b c : gmap (list N) (list N)),
       css_elements (Main.chapter_list rules) toc_html = [a; b; c] ->
       a !! Main.chapter_link_attr rules = None ->
       has_href (Main.chapter_link_attr rules) b ->
       has_href (Main.chapter_link_attr rules) c ->
       map Main.task_idx (Main.create_tasks target rules toc_html)
       = [1; 2]%nat).
Proof.
  intros Hclaim.
  specialize (Hclaim
    (page_libraries [] []
       [∅; {[py "href" := py "/1"]}; {[py "href" := py "/2"]}])
    (py "http://x") example_rules (py "toc") _ _ _ eq_refl).
  assert (map Main.task_idx
            (@Main.create_tasks
               (page_libraries [] []
                  [∅; {[py "href" := py "/1"]}; {[py "href" := py "/2"]}])
               (py "http://x") example_rules (py "toc")) = [2; 3]%nat) as Hrun
    by (vm_compute; reflexivity).
  rewrite Hrun in Hclaim. discriminate Hclaim.
  - reflexivity.
  - eexists. split; [apply lookup_singleton_eq|discriminate].
  - eexists. split; [apply lookup_singleton_eq|discriminate].
Qed.

(** ** One [download_chapter] from start to end *)

Section Chapter.
Context `{Libraries}.
Variables (url : pystr) (idx : Z) (rules : Main.Rules).
Variables encoding novel_dir : pystr.

Lemma download_chapter_run w result w1 :
  run (Main.fetch url encoding) (record_event EvAcquire w) = (Ok result, w1) ->
  let out := run (Main.download_chapter url idx rules encoding novel_dir) w in
  out.1 = Ok tt
  /\ (Main.truthy_opt result = false -> trace out.2 = trace w1 ++ [EvRelease])
  /\ (Main.truthy_opt result = true ->
        exists events,
          trace out.2 = trace w1 ++ events ++ [EvSleep Main.DELAY; EvRelease]
          /\ (EvRelease ∉ events) /\ (EvSleep Main.DELAY ∉ events)).
Proof.
  intros Hfetch out.
  set (title := Main.extract_title rules (default [] result)).
  set (content := Main.extract_content rules (default [] result)).
  set (rest := if negb (Main.truthy_opt result) then ret tt
               else ((if Main.truthy_opt title && truthy content
                      then Main.save_chapter novel_dir idx (default [] title)
                             content
                      else ret tt) ;; sleep Main.DELAY)).
  assert (out = ((rest w1).1, record_event EvRelease (rest w1).2)) as ->.
  { unfold out, run in *.
    cbv beta iota zeta delta
      [Main.download_chapter Main.download_body try_finally bind emit].
    rewrite Hfetch.
    change ((let (e0, w') := rest w1 in
             match e0 with
             | Ok a => (Ok a, record_event EvRelease w')
             | Raise e => (Raise e, record_event EvRelease w')
             end) = ((rest w1).1, record_event EvRelease (rest w1).2)).
    by destruct (rest w1) as [[[]|e] w2]. }
  unfold rest. destruct (Main.truthy_opt result) eqn:Hr; cbn [negb].
  - destruct (Main.truthy_opt title && truthy content).
    + destruct (save_chapter_frame idx novel_dir (default [] title) content w1)
        as (Hok & events & Htrace & _ & Hrel & Hsl).
      unfold run in Hok, Htrace. cbv beta delta [bind].
      destruct (Main.save_chapter novel_dir idx (default [] title) content w1)
        as [[[]|e] w2]; [|discriminate Hok].
      cbn [fst snd] in Htrace.
      cbv beta iota delta [sleep emit]. cbn [fst snd trace record_event].
      rewrite Htrace, <- !app_assoc.
      repeat split; try done. intros _. by exists events.
    + io_simpl. repeat split; try done. intros _. exists [].
      rewrite <- app_assoc. repeat split; try done; apply not_elem_of_nil.
  - io_simpl. by repeat split.
Qed.

Lemma download_chapter_fetches w :
  exists later,
    trace (run (Main.download_chapter url idx rules encoding novel_dir) w).2
    = trace w ++ [EvAcquire; EvGet url] ++ later.
Proof.
  destruct (fetch_loop_frame url encoding Main.RETRIES (record_event EvAcquire w))
    as ((result & Hres) & _ & _ & _ & _ & _ & events & Htrace & Hget & _).
  destruct (Hget ltac:(done)) as (later & ->).
  destruct (Main.fetch_loop Main.RETRIES url encoding (record_event EvAcquire w))
    as [r w1] eqn:Hfetch.
  cbn in Hres, Htrace. subst r.
  destruct (download_chapter_run w result w1 Hfetch) as (_ & Hfail & Hgood).
  destruct (Main.truthy_opt result).
  - destruct (Hgood eq_refl) as (evs & -> & _). rewrite Htrace.
    cbn. rewrite <- !app_assoc. cbn. eauto.
  - rewrite (Hfail eq_refl), Htrace. cbn. rewrite <- !app_assoc. cbn. eauto.
Qed.

End Chapter.

(** C1, where the code departs from it.  [download_chapter] never consults
    the index: a chapter whose url is in the index is requested, extracted
    and written again. *)
Theorem indexed_chapter_is_fetched_again :
  let L := page_libraries [py "T"] [py "new"] [] in
  let path := py "d/0001_T.txt" in
  let out :=
    run (Main.download_chapter (py "u") 1 example_rules (py "auto") (py "d"))
        resumed_world in
  (run (Storage.is_downloaded (py "u")) resumed_world).1 = Ok true
  /\ trace out.2
     = [EvAcquire; EvGet (py "u"); EvOpenW path;
        EvWrite path (py "T" ++ NL ++ NL); EvWrite path (py "new");
        EvSleep 500; EvRelease]
  /\ fs resumed_world !! path = Some (py "T" ++ NL ++ NL ++ py "old")
  /\ fs out.2 !! path = Some (py "T" ++ NL ++ NL ++ py "new").
Proof. vm_compute. repeat split. Qed.

(** Whatever the index holds, the first thing a job does with its slot is to
    request its url. *)
Lemma download_chapter_ignores_index `{Libraries} (url : pystr) (idx : Z)
    (rules : Main.Rules) (encoding novel_dir : pystr) (w : world) :
  (run (Storage.is_downloaded url) w).1 = Ok true ->
  exists later,
    trace (run (Main.download_chapter url idx rules encoding novel_dir) w).2
    = trace w ++ [EvAcquire; EvGet url] ++ later.
Proof. intros _. apply download_chapter_fetches. Qed.

(** ** The semaphore bounds the tasks in flight *)

Section Semaphore.
Import Scheduler.

Lemma count_cons f p ps :
  count f (p :: ps) = ((if f p then 1 else 0) + count f ps)%nat.
Proof. unfold count. cbn. by destruct (f p). Qed.

Lemma count_insert f ps : forall i p q,
  ps !! i = Some p ->
  (count f (<[i := q]> ps) + (if f p then 1 else 0)
   = count f ps + (if f q then 1 else 0))%nat.
Proof.
  induction ps as [|x ps IH]; intros [|i] p q Hp; try done.
  - injection Hp as ->. change (<[0%nat := q]> (p :: ps)) with (q :: ps).
    rewrite !count_cons. destruct (f p), (f q); lia.
  - change (<[S i := q]> (x :: ps)) with (x :: <[i := q]> ps).
    rewrite !count_cons.
    specialize (IH i p q Hp). destruct (f x), (f p), (f q); lia.
Qed.

Lemma count_in_flight_le ps :
  (count in_flight ps <= count holds_slot ps)%nat.
Proof.
  induction ps as [|p ps IH]; [done|].
  rewrite !count_cons. destruct p; cbn; lia.
Qed.

Lemma count_pending n f : f Pending = false -> count f (repeat Pending n) = 0%nat.
Proof.
  intros Hf. induction n as [|n IH]; [done|].
  cbn [repeat]. rewrite count_cons, Hf, IH. done.
Qed.

Lemma step_keeps_slots limit s s' :
  step s s' ->
  (sem_value s + count holds_slot (phases s) = limit)%nat ->
  (sem_value s' + count holds_slot (phases s') = limit)%nat.
Proof.
  intros Hstep Hinv.
  destruct Hstep as [n ps i Hp | n ps i Hp | n ps i Hp | n ps i Hp
                    | n ps i Hp | n ps i Hp];
    cbn [sem_value phases] in *;
    match goal with
    | |- context [<[i := ?q]> ps] =>
      pose proof (count_insert holds_slot ps i _ q Hp) as Hc
    end; cbn in Hc; lia.
Qed.

Lemma reachable_keeps_slots limit jobs s :
  reachable limit jobs s ->
  (sem_value s + count holds_slot (phases s) = limit)%nat.
Proof.
  unfold reachable. revert s. apply rtc_ind_r.
  - unfold init. cbn [sem_value phases]. rewrite count_pending by done. lia.
  - intros s s' _ Hstep IH. by eapply step_keeps_slots.
Qed.

Lemma release_step s s' :
  step s s' -> sem_value s' = S (sem_value s) ->
  exists i, (phases s !! i = Some Delaying \/ phases s !! i = Some Fetching)
            /\ phases s' = <[i := Finished]> (phases s).
Proof.
  intros Hstep Hsem.
  destruct Hstep as [n ps i Hp | n ps i Hp | n ps i Hp | n ps i Hp
                    | n ps i Hp | n ps i Hp];
    cbn [sem_value phases] in *; try lia; exists i; eauto.
Qed.

End Semaphore.

(** C8, as the code has it.  With a semaphore of capacity [limit], in every
    state the tasks can reach the free slots and the tasks inside the
    [async with] block add up to [limit], so at most [limit] tasks are past
    fetch-start and before persist-completion.  A slot is given back by a
    task whose delay is over or by a task whose fetch failed; in the run of
    one [download_chapter] the release is the last event, right after the
    politeness delay when the fetch gave a page, and right after the fetch,
    with no delay, when it did not. *)
Theorem slots_never_exceed_limit `{Libraries} (limit jobs : nat)
    (s : Scheduler.sched) :
  Scheduler.reachable limit jobs s ->
  (Scheduler.sem_value s
   + Scheduler.count Scheduler.holds_slot (Scheduler.phases s) = limit)%nat
  /\ (Scheduler.count Scheduler.in_flight (Scheduler.phases s) <= limit)%nat
  /\ (forall s',
        Scheduler.step s s' ->
        Scheduler.sem_value s' = S (Scheduler.sem_value s) ->
        exists i,
          (Scheduler.phases s !! i = Some Scheduler.Delaying
           \/ Scheduler.phases s !! i = Some Scheduler.Fetching)
          /\ Scheduler.phases s'
             = <[i := Scheduler.Finished]> (Scheduler.phases s))
  /\ (forall url idx rules encoding novel_dir w result w1,
        run (Main.fetch url encoding) (record_event EvAcquire w)
        = (Ok result, w1) ->
        let out :=
          run (Main.download_chapter url idx rules encoding novel_dir) w in
        (Main.truthy_opt result = false ->
           trace out.2 = trace w1 ++ [EvRelease])
        /\ (Main.truthy_opt result = true ->
              exists events,
                trace out.2
                = trace w1 ++ events ++ [EvSleep Main.DELAY; EvRelease]
                /\ (EvRelease ∉ events)
                /\ (EvSleep Main.DELAY ∉ events))).
Proof.
  intros Hreach.
  pose proof (reachable_keeps_slots limit jobs s Hreach) as Hinv.
  split; [exact Hinv|]. split; [|split].
  - pose proof (count_in_flight_le (Scheduler.phases s)). lia.
  - apply release_step.
  - intros url idx rules encoding novel_dir w result w1 Hfetch.
    by destruct (download_chapter_run url idx rules encoding novel_dir
                   w result w1 Hfetch) as (_ & Hfail & Hgood).
Qed.

Lemma slots_never_exceed_limit_witness :
  let L := page_libraries [] [] [] in
  let s := Scheduler.Sched 0 [Scheduler.Fetching; Scheduler.Pending] in
  Scheduler.reachable 1 2 s
  /\ (Scheduler.count Scheduler.in_flight (Scheduler.phases s) <= 1)%nat.
Proof.
  intros L s.
  assert (Scheduler.reachable 1 2 s) as Hreach.
  { apply rtc_once.
    apply (Scheduler.step_acquire 0 [Scheduler.Pending; Scheduler.Pending] 0).
    reflexivity. }
  split; [exact Hreach|].
  destruct (slots_never_exceed_limit 1 2 s Hreach) as (_ & Hbound & _).
  exact Hbound.
Defined.

Lemma slot_released_without_delay :
  ~ (forall (L : Libraries) (url : pystr) (idx : Z) (rules : Main.Rules)
            (encoding novel_dir : pystr) (w : world),
       exists before,
         trace (run (Main.download_chapter url idx rules encoding novel_dir)
                    w).2
         = trace w ++ before ++ [EvSleep Main.DELAY; EvRelease]).
Proof.
  intros Hclaim.
  destruct (Hclaim (page_libraries [] [] []) (py "u") 1%Z example_rules
              (py "auto") (py "d")
              (example_world [Response 404 (Ok [])] 0)) as (before & Hrun).
  vm_compute in Hrun.
  destruct before as [|a [|b [|c before]]]; try discriminate Hrun.
  injection Hrun as _ _ _ Hrest. by destruct before.
Qed.

(** ** The storage properties on examples *)

Lemma save_failure_is_not_raised :
  ~ (forall (self : Storage.StorageHandler) (idx : Z)
            (title content url : pystr) (w : world),
       (exists k, (k < 5)%nat /\ op_fails w k = true) ->
       exists e,
         (run (Storage.save_chapter self idx title content url) w).1
         = Raise e).
Proof.
  intros Hclaim.
  destruct (Hclaim example_handler 1%Z (py "T") (py "text") (py "u")
              (example_world [] 0)) as (e & Hrun).
  - exists 0%nat. split; [lia|reflexivity].
  - vm_compute in Hrun. discriminate Hrun.
Qed.

Lemma save_chapter_swallows_failures_witness :
  let w := example_world [] 2 in
  let stored :=
    run (Storage.save_chapter example_handler 1 (py "T") (py "text") (py "u"))
        w in
  let written := run (Main.save_chapter (py "d") 1 (py "T") (py "text")) w in
  ((exists k, (k < 5)%nat /\ op_fails w k = true) /\ chapter_write_fails w)
  /\ stored.1 = Ok tt /\ written.1 = Ok tt
  /\ last (trace stored.2) = Some EvLogError
  /\ last (trace written.2) = Some EvLogError.
Proof.
  intros w stored written.
  assert ((exists k, (k < 5)%nat /\ op_fails w k = true)
          /\ chapter_write_fails w) as Hyp.
  { split.
    - exists 2%nat. split; [lia|reflexivity].
    - right. right. reflexivity. }
  split; [exact Hyp|]. destruct Hyp as [Hsome Hchapter].
  destruct (save_chapter_swallows_failures example_handler (py "d") 1 (py "T")
              (py "text") (py "u") w) as (Hs & Hw & Hlog & Hlog').
  split; [exact Hs|]. split; [exact Hw|].
  split; [exact (Hlog Hsome)|exact (Hlog' Hchapter)].
Defined.




Lemma load_index_defaults_to_empty_witness :
  let w := set_index_file Malformed (example_world [] 9) in
  index_file w = Malformed
  /\ run Storage._load_index w = (Ok ∅, w)
  /\ forall url,
       (run (Storage.is_downloaded url)
            (run (Storage.__init__ (py "novel") (py "Unknown")) w).2).1
       = Ok false.
Proof.
  intros w.
  assert (index_file w = Malformed) as Hyp by reflexivity.
  split; [exact Hyp|].
  destruct (load_index_defaults_to_empty w (or_intror (or_intror Hyp)))
    as (Hload & Hinit).
  split; [exact Hload|].
  destruct (Hinit (py "novel") (py "Unknown") eq_refl) as (_ & _ & Hno).
  exact Hno.
Defined.

(** * Further properties *)

(** ** Sanitised names *)

Lemma lstrip_suffix (s : pystr) :
  exists spaces, s = spaces ++ lstrip s
                 /\ Forall (fun c => isspace c = true) spaces.
Proof.
  induction s as [|c s (spaces & Hs & Hall)]; [by exists []|].
  cbn [lstrip]. destruct (isspace c) eqn:Hc.
  - exists (c :: spaces). split; [by rewrite Hs at 1|by constructor].
  - by exists [].
Qed.

Lemma lstrip_head (s : pystr) (c : N) :
  head (lstrip s) = Some c -> isspace c = false.
Proof.
  induction s as [|d s IH]; [done|]. cbn [lstrip].
  destruct (isspace d) eqn:Hd; [exact IH|]. by intros [= <-].
Qed.

Lemma lstrip_fixed (s : pystr) :
  (forall c, head s = Some c -> isspace c = false) -> lstrip s = s.
Proof.
  destruct s as [|c s]; [done|]. intros Hc. cbn [lstrip].
  by rewrite (Hc c eq_refl).
Qed.

Lemma rstrip_prefix (s : pystr) :
  exists spaces, s = rstrip s ++ spaces
                 /\ Forall (fun c => isspace c = true) spaces.
Proof.
  unfold rstrip. destruct (lstrip_suffix (rev s)) as (spaces & Hs & Hall).
  exists (rev spaces). split.
  - rewrite <- rev_app_distr, <- Hs. by rewrite rev_involutive.
  - by apply Forall_rev.
Qed.

Lemma last_rev_head (s : pystr) : last (rev s) = head s.
Proof. destruct s as [|c s]; [done|]. cbn [rev]. apply last_snoc. Qed.

Lemma rstrip_last (s : pystr) (c : N) :
  last (rstrip s) = Some c -> isspace c = false.
Proof.
  unfold rstrip. rewrite last_rev_head. apply lstrip_head.
Qed.

Lemma rstrip_head (s : pystr) (c : N) :
  head (rstrip s) = Some c -> head s = Some c.
Proof.
  destruct (rstrip_prefix s) as (spaces & Hs & _). intros Hc.
  rewrite Hs. by destruct (rstrip s).
Qed.

Lemma rstrip_fixed (s : pystr) :
  (forall c, last s = Some c -> isspace c = false) -> rstrip s = s.
Proof.
  intros Hc. unfold rstrip. rewrite lstrip_fixed; [apply rev_involutive|].
  intros c. rewrite <- last_rev_head, rev_involutive. apply Hc.
Qed.

Lemma strip_ends (s : pystr) (c : N) :
  head (strip s) = Some c \/ last (strip s) = Some c -> isspace c = false.
Proof.
  unfold strip. intros [Hc | Hc].
  - apply rstrip_head in Hc. by apply lstrip_head in Hc.
  - by apply rstrip_last in Hc.
Qed.

Lemma strip_fixed (s : pystr) :
  (forall c, head s = Some c \/ last s = Some c -> isspace c = false) ->
  strip s = s.
Proof.
  intros Hc. unfold strip. rewrite lstrip_fixed by (intros c ?; apply Hc; auto).
  apply rstrip_fixed. intros c ?. apply Hc. auto.
Qed.

Lemma strip_subseq (s : pystr) (c : N) : c ∈ strip s -> c ∈ s.
Proof.
  unfold strip. intros Hc.
  destruct (lstrip_suffix s) as (front & Hs & _).
  destruct (rstrip_prefix (lstrip s)) as (back & Hb & _).
  rewrite Hs, Hb. set_solver.
Qed.

Lemma re_sub_illegal_clean (s : pystr) :
  Forall (fun c => illegal_char c = false) (re_sub_illegal s).
Proof.
  apply List.Forall_forall. intros c Hc.
  apply List.filter_In in Hc as [_ Hc]. by apply negb_true_iff.
Qed.

Lemma re_sub_illegal_fixed (s : pystr) :
  Forall (fun c => illegal_char c = false) s -> re_sub_illegal s = s.
Proof.
  intros Hs. induction Hs as [|c s Hc _ IH]; [done|].
  unfold re_sub_illegal in *. cbn. by rewrite Hc, IH.
Qed.

Lemma clean_filename_clean (filename : pystr) :
  Forall (fun c => illegal_char c = false) (Main.clean_filename filename).
Proof.
  apply Forall_forall. intros c Hc. apply strip_subseq in Hc.
  pose proof (re_sub_illegal_clean filename) as Hall.
  rewrite Forall_forall in Hall. by apply Hall.
Qed.

(** X1.  The name [clean_filename] returns holds none of the characters
    [re.sub] deletes and neither starts nor ends with whitespace, so
    cleaning it again changes nothing. *)
Theorem clean_filename_safe (filename : pystr) :
  Forall (fun c => illegal_char c = false) (Main.clean_filename filename)
  /\ (forall c, head (Main.clean_filename filename) = Some c
                \/ last (Main.clean_filename filename) = Some c ->
                isspace c = false)
  /\ Main.clean_filename (Main.clean_filename filename)
     = Main.clean_filename filename.
Proof.
  pose proof (clean_filename_clean filename) as Hclean.
  split; [exact Hclean|]. split; [apply strip_ends|].
  unfold Main.clean_filename at 1. fold (Main.clean_filename filename).
  rewrite re_sub_illegal_fixed by done.
  apply strip_fixed, strip_ends.
Qed.

Lemma clean_filename_safe_witness :
  let name := Main.clean_filename (py " a:b? ") in
  head name = Some 97
  /\ name = py "ab"
  /\ isspace 97 = false.
Proof.
  intros name.
  assert (head name = Some 97) as Hyp by reflexivity.
  split; [exact Hyp|]. split; [reflexivity|].
  destruct (clean_filename_safe (py " a:b? ")) as (_ & Hends & _).
  exact (Hends 97 (or_introl Hyp)).
Defined.

Lemma lstrip_all_space (s : pystr) :
  Forall (fun c => isspace c = true) s -> lstrip s = [].
Proof.
  intros Hs. induction Hs as [|c s Hc _ IH]; [done|].
  cbn [lstrip]. by rewrite Hc.
Qed.

Lemma clean_str_nonempty (s : pystr) :
  s <> [] -> Storage._clean_str s = Main.clean_filename s.
Proof. by destruct s. Qed.

Lemma clean_str_clean (s : pystr) :
  Forall (fun c => illegal_char c = false) (Storage._clean_str s).
Proof.
  destruct s as [|c s]; [by repeat constructor|].
  rewrite clean_str_nonempty by done. apply clean_filename_clean.
Qed.

(** X2.  [_clean_str] answers Unknown for the empty string only.  Any other
    string is cleaned like a file name, and a non-empty string made of
    deleted characters and whitespace alone is cleaned to the empty string,
    so that its chapter file is named by the number alone.  The result never
    holds a deleted character and never starts or ends with whitespace. *)
Theorem clean_str_unknown_for_empty_only (s : pystr) (idx : Z) :
  Storage._clean_str [] = py "Unknown"
  /\ (s <> [] -> Storage._clean_str s = Main.clean_filename s)
  /\ (s <> [] ->
      Forall (fun c => illegal_char c = true \/ isspace c = true) s ->
      Storage._clean_str s = []
      /\ Storage.chapter_filename idx s = fmt04d idx ++ py "_.txt")
  /\ Forall (fun c => illegal_char c = false) (Storage._clean_str s)
  /\ (forall c, head (Storage._clean_str s) = Some c
                \/ last (Storage._clean_str s) = Some c ->
                isspace c = false).
Proof.
  split; [done|]. split; [apply clean_str_nonempty|]. split.
  - intros Hne Hall.
    assert (Storage._clean_str s = []) as Hempty.
    { rewrite clean_str_nonempty by done. unfold Main.clean_filename, strip.
      rewrite lstrip_all_space; [done|].
      apply List.Forall_forall. intros c Hc.
      apply List.filter_In in Hc as [Hin Hc].
      rewrite List.Forall_forall in Hall.
      destruct (Hall c Hin) as [Hi | Hs]; [|done].
      by rewrite Hi in Hc. }
    split; [exact Hempty|].
    unfold Storage.chapter_filename. by rewrite Hempty.
  - split; [apply clean_str_clean|].
    destruct s as [|c s].
    + intros c [[= <-] | [= <-]]; reflexivity.
    + rewrite clean_str_nonempty by done. apply strip_ends.
Qed.

Lemma clean_str_unknown_for_empty_only_witness :
  let s := py " ?/ " in
  (s <> [] /\ Forall (fun c => illegal_char c = true \/ isspace c = true) s)
  /\ Storage._clean_str s = []
  /\ Storage.chapter_filename 7 s = py "0007_.txt".
Proof.
  intros s.
  assert (s <> []
          /\ Forall (fun c => illegal_char c = true \/ isspace c = true) s)
    as Hyp.
  { split; [discriminate|].
    repeat constructor; (by left) || (by right). }
  split; [exact Hyp|]. destruct Hyp as [Hne Hall].
  destruct (clean_str_unknown_for_empty_only s 7) as (_ & _ & Hthm & _).
  exact (Hthm Hne Hall).
Defined.

(** ** Where the handler puts its files *)

Lemma uint_digits_range (d : Decimal.uint) :
  Forall (fun c => 48 <= c <= 57) (uint_digits d).
Proof. induction d; cbn [uint_digits]; constructor; (lia || done). Qed.

Lemma fmt04d_chars (idx : Z) :
  Forall (fun c => c = 45 \/ 48 <= c <= 57) (fmt04d idx).
Proof.
  assert (forall width d,
            Forall (fun c => c = 45 \/ 48 <= c <= 57)
                   (zero_pad width (uint_digits d))) as Hpad.
  { intros width d. unfold zero_pad. apply Forall_app. split.
    - apply Forall_forall. intros c Hc. apply list_elem_of_In in Hc.
      apply repeat_spec in Hc as ->. right. lia.
    - eapply Forall_impl; [apply uint_digits_range|]. intros c Hc. by right. }
  destruct idx; cbn [fmt04d]; try apply Hpad.
  constructor; [by left|apply Hpad].
Qed.

Lemma fmt04d_length (idx : Z) : (4 <= length (fmt04d idx))%nat.
Proof.
  assert (forall width d, (width <= length (zero_pad width d))%nat) as Hpad.
  { intros width d. unfold zero_pad. rewrite length_app, repeat_length. lia. }
  destruct idx; cbn [fmt04d length].
  - apply Hpad.
  - apply Hpad.
  - pose proof (Hpad 3%nat (uint_digits (Pos.to_uint p))). lia.
Qed.

Lemma chapter_filename_no_separator (idx : Z) (title : pystr) :
  Forall (fun c => c <> 47 /\ c <> 92) (Storage.chapter_filename idx title).
Proof.
  unfold Storage.chapter_filename. repeat (apply Forall_app; split).
  - eapply Forall_impl; [apply fmt04d_chars|]. intros c Hc. cbv beta in *.
    split; intros ->; destruct Hc as [Hc | Hc]; (discriminate || lia).
  - repeat constructor; discriminate.
  - eapply Forall_impl; [apply clean_str_clean|]. intros c Hi.
    split; intros ->; discriminate Hi.
  - repeat constructor; discriminate.
Qed.

Lemma path_join_relative (a b : pystr) :
  a <> [] ->
  (forall c, last a = Some c -> c <> 47) ->
  (forall c, head b = Some c -> c <> 47) ->
  path_join a b = a ++ [47] ++ b.
Proof.
  intros Ha Hlast Hhead. unfold path_join.
  assert (match last a with
          | None => b
          | Some 47 => a ++ b
          | Some _ => a ++ [47] ++ b
          end = a ++ [47] ++ b) as Hjoin.
  { destruct (last a) as [c|] eqn:Hl.
    - specialize (Hlast c eq_refl).
      destruct c as [|p]; [done|].
      do 6 (destruct p as [p|p|]; try done).
    - by apply last_None in Hl. }
  destruct b as [|c b]; [exact Hjoin|].
  specialize (Hhead c eq_refl).
  destruct c as [|p]; [exact Hjoin|].
  do 6 (destruct p as [p|p|]; try exact Hjoin). done.
Qed.

Lemma load_index_total (w : world) :
  exists m, Storage._load_index w = (Ok m, w).
Proof.
  cbv beta iota zeta delta
    [Storage._load_index Storage.index_exists Storage.read_index_json
     try_except bind ret].
  destruct (index_file w) eqn:Hf; cbn; rewrite ?Hf; eauto.
Qed.

Lemma init_handler (name auth : pystr) (w w' : world)
    (h : Storage.StorageHandler) :
  run (Storage.__init__ name auth) w = (Ok h, w') ->
  let base := path_join (py "downloads")
                (py "[" ++ Storage._clean_str auth ++ py "] "
                 ++ Storage._clean_str name) in
  Storage.base_dir h = base
  /\ Storage.chapter_dir h = path_join base (py "chapters")
  /\ Storage.index_path h = path_join base (py "index.json").
Proof.
  cbv beta iota zeta delta [run Storage.__init__ Storage.makedirs file_op bind].
  destruct (io_fails w (ticks w)); [discriminate|].
  destruct (load_index_total (bump_ticks w)) as (m & ->).
  cbv beta iota zeta delta [ret]. by intros [= <- _].
Qed.

Lemma base_dir_shape (name auth : pystr) :
  let base := path_join (py "downloads")
                (py "[" ++ Storage._clean_str auth ++ py "] "
                 ++ Storage._clean_str name) in
  base = py "downloads/[" ++ Storage._clean_str auth ++ py "] "
         ++ Storage._clean_str name
  /\ base <> []
  /\ (forall c, last base = Some c -> c <> 47).
Proof.
  cbv zeta.
  rewrite path_join_relative; [|done|by intros c [= <-]|by intros c [= <-]].
  split; [done|]. split; [done|].
  intros c Hc.
  replace (py "downloads" ++ [47] ++ py "[" ++ Storage._clean_str auth
           ++ py "] " ++ Storage._clean_str name)
    with ((py "downloads/[" ++ Storage._clean_str auth ++ [93])
          ++ 32 :: Storage._clean_str name) in Hc
    by (by rewrite <- !app_assoc).
  rewrite last_app_cons, last_cons in Hc.
  destruct (last (Storage._clean_str name)) as [d|] eqn:Hd.
  - injection Hc as <-.
    pose proof (clean_str_clean name) as Hall.
    apply last_Some_elem_of in Hd. rewrite Forall_forall in Hall.
    intros ->. by specialize (Hall _ Hd).
  - by injection Hc as <-.
Qed.

(** X3.  For a handler built by [__init__], the chapter directory and the
    index file lie directly under the base directory, the name of a chapter
    file holds neither a slash nor a backslash whatever the title, so the
    file lies directly in the chapter directory, and no chapter file is ever
    the index file. *)
Theorem chapter_files_stay_in_chapter_dir (name auth : pystr) (w w' : world)
    (h : Storage.StorageHandler) (idx : Z) (title : pystr) :
  run (Storage.__init__ name auth) w = (Ok h, w') ->
  Forall (fun c => c <> 47 /\ c <> 92) (Storage.chapter_filename idx title)
  /\ Storage.chapter_dir h = Storage.base_dir h ++ py "/chapters"
  /\ Storage.index_path h = Storage.base_dir h ++ py "/index.json"
  /\ Storage.chapter_filepath h idx title
     = Storage.chapter_dir h ++ py "/" ++ Storage.chapter_filename idx title
  /\ Storage.chapter_filepath h idx title <> Storage.index_path h.
Proof.
  intros Hinit.
  destruct (init_handler name auth w w' h Hinit) as (Hbase & Hdir & Hindex).
  destruct (base_dir_shape name auth) as (_ & Hne & Hlast).
  cbv zeta in *. rewrite <- Hbase in *. clear Hbase.
  assert (Storage.chapter_dir h = Storage.base_dir h ++ py "/chapters") as Hd.
  { rewrite Hdir. by apply path_join_relative; [| |intros c [= <-]]. }
  assert (Storage.index_path h = Storage.base_dir h ++ py "/index.json") as Hi.
  { rewrite Hindex. by apply path_join_relative; [| |intros c [= <-]]. }
  assert (Storage.chapter_filepath h idx title
          = Storage.chapter_dir h ++ py "/"
            ++ Storage.chapter_filename idx title) as Hp.
  { unfold Storage.chapter_filepath. apply path_join_relative.
    - rewrite Hd. by destruct (Storage.base_dir h).
    - rewrite Hd. intros c Hc.
      change (py "/chapters") with (py "/chapter" ++ [115]) in Hc.
      rewrite app_assoc, last_snoc in Hc. by injection Hc as <-.
    - intros c Hc. pose proof (chapter_filename_no_separator idx title) as Hall.
      destruct (Storage.chapter_filename idx title) as [|d l]; [done|].
      injection Hc as ->. by apply Forall_inv in Hall as [? _]. }
  split; [apply chapter_filename_no_separator|].
  split; [exact Hd|]. split; [exact Hi|]. split; [exact Hp|].
  rewrite Hp, Hd, Hi, <- app_assoc. intros Heq.
  apply app_inv_head in Heq. discriminate Heq.
Qed.

Lemma chapter_files_stay_in_chapter_dir_witness :
  let w := example_world [] 9 in
  let built := run (Storage.__init__ (py "a/b") (py "")) w in
  (exists h w', built = (Ok h, w'))
  /\ forall h w', built = (Ok h, w') ->
       Storage.chapter_filepath h 1 (py "../x")
       = Storage.chapter_dir h ++ py "/"
         ++ Storage.chapter_filename 1 (py "../x").
Proof.
  intros w built.
  split; [unfold built; vm_compute; eexists _, _; reflexivity|].
  intros h w' Hinit.
  destruct (chapter_files_stay_in_chapter_dir (py "a/b") (py "") w w' h 1
              (py "../x") Hinit) as (_ & _ & _ & Hp & _).
  exact Hp.
Defined.

(** ** Chapter files sort by their number *)

Lemma str_ltb_trans (a : pystr) : forall b c,
  str_ltb a b = true -> str_ltb b c = true -> str_ltb a c = true.
Proof.
  induction a as [|x a IH]; intros [|y b] [|z c]; cbn; try done.
  intros Hab Hbc.
  apply orb_true_iff in Hab as [Hxy | [Hxy Hab]%andb_true_iff];
    apply orb_true_iff in Hbc as [Hyz | [Hyz Hbc]%andb_true_iff];
    rewrite ?N.ltb_lt, ?N.eqb_eq in *; apply orb_true_iff.
  - left. apply N.ltb_lt. lia.
  - left. apply N.ltb_lt. lia.
  - left. apply N.ltb_lt. lia.
  - right. apply andb_true_iff. split; [apply N.eqb_eq; lia|by eapply IH].
Qed.

Lemma str_ltb_prefixes (a : pystr) : forall b s t,
  length a = length b -> str_ltb a b = true ->
  str_ltb (a ++ s) (b ++ t) = true.
Proof.
  induction a as [|x a IH]; intros [|y b] s t Hlen; cbn; try done.
  intros Hab. apply orb_true_iff in Hab as [Hxy | [Hxy Hab]%andb_true_iff].
  - by rewrite Hxy.
  - rewrite Hxy, (IH b s t) by (done || (cbn in Hlen; lia)).
    apply orb_true_r.
Qed.

Lemma fmt04d_adjacent (n : nat) :
  (Z.of_nat n < 9999)%Z ->
  length (fmt04d (Z.of_nat n)) = 4%nat
  /\ length (fmt04d (Z.of_nat (S n))) = 4%nat
  /\ str_ltb (fmt04d (Z.of_nat n)) (fmt04d (Z.of_nat (S n))) = true.
Proof.
  intros Hn.
  assert (forallb
            (fun k =>
               (length (fmt04d (Z.of_nat k)) =? 4)%nat
               && (length (fmt04d (Z.of_nat (S k))) =? 4)%nat
               && str_ltb (fmt04d (Z.of_nat k)) (fmt04d (Z.of_nat (S k))))
            (seq 0 (Z.to_nat 9999)) = true) as Hall
    by (vm_compute; reflexivity).
  rewrite forallb_forall in Hall.
  specialize (Hall n ltac:(apply in_seq; lia)).
  apply andb_true_iff in Hall as [[H1 H2]%andb_true_iff H3].
  by apply Nat.eqb_eq in H1, H2.
Qed.

Lemma fmt04d_ordered (i j : nat) :
  (i < j)%nat -> (Z.of_nat j <= 9999)%Z ->
  length (fmt04d (Z.of_nat i)) = 4%nat
  /\ length (fmt04d (Z.of_nat j)) = 4%nat
  /\ str_ltb (fmt04d (Z.of_nat i)) (fmt04d (Z.of_nat j)) = true.
Proof.
  intros Hij. induction Hij as [|j Hij IH]; intros Hj.
  - apply fmt04d_adjacent. lia.
  - destruct IH as (Hi & _ & Hlt); [lia|].
    destruct (fmt04d_adjacent j ltac:(lia)) as (_ & Hj' & Hstep).
    split; [done|]. split; [done|]. by eapply str_ltb_trans.
Qed.

(** X4.  The four-digit prefix makes chapter files sort by chapter number:
    for numbers from 0 to 9999 the file with the smaller number has the
    smaller name, whatever the titles, so two chapters with different numbers
    never share a file name.  From 10000 on the prefix has five digits and
    the order is lost: chapter 10000 sorts before chapter 9999. *)
Theorem chapter_files_sort_by_number (i j : Z) (title title' : pystr) :
  (0 <= i < j)%Z -> (j <= 9999)%Z ->
  str_ltb (Storage.chapter_filename i title)
          (Storage.chapter_filename j title') = true
  /\ Storage.chapter_filename i title <> Storage.chapter_filename j title'
  /\ str_ltb (Storage.chapter_filename 10000 title)
             (Storage.chapter_filename 9999 title') = true.
Proof.
  intros Hij Hj.
  assert (str_ltb (Storage.chapter_filename i title)
                  (Storage.chapter_filename j title') = true) as Hlt.
  { destruct (fmt04d_ordered (Z.to_nat i) (Z.to_nat j)) as (Hi & Hj' & Hlt);
      [lia|lia|].
    rewrite !Z2Nat.id in * by lia.
    unfold Storage.chapter_filename. apply str_ltb_prefixes; congruence. }
  split; [exact Hlt|]. split; [|reflexivity].
  intros Heq. rewrite Heq in Hlt.
  assert (forall s, str_ltb s s = false) as Hirr.
  { induction s as [|c s IH]; [done|]. cbn.
    by rewrite N.ltb_irrefl, IH, andb_false_r. }
  by rewrite Hirr in Hlt.
Qed.

Lemma chapter_files_sort_by_number_witness :
  ((0 <= 9 < 10)%Z /\ (10 <= 9999)%Z)
  /\ str_ltb (Storage.chapter_filename 9 (py "z"))
             (Storage.chapter_filename 10 (py "a")) = true.
Proof.
  assert ((0 <= 9 < 10)%Z /\ (10 <= 9999)%Z) as Hyp by lia.
  split; [exact Hyp|]. destruct Hyp as [Hij Hj].
  destruct (chapter_files_sort_by_number 9 10 (py "z") (py "a") Hij Hj)
    as (Hlt & _).
  exact Hlt.
Defined.

(** ** Saving twice, saving and restarting *)


(** The world a [save_chapter] leaves when none of its five file operations
    fails. *)
Lemma save_chapter_succeeds self idx title content url w :
  (forall k, (k < 5)%nat -> op_fails w k = false) ->
  let path := Storage.chapter_filepath self idx title in
  let e := Entry idx (Storage._clean_str title)
                 (Storage.chapter_filename idx title) in
  let w' := (run (Storage.save_chapter self idx title content url) w).2 in
  fs w' = <[path := title ++ NL ++ NL ++ content]> (fs w)
  /\ downloaded_chapters w' = <[url := e]> (downloaded_chapters w)
  /\ index_file w' = Stored (<[url := e]> (downloaded_chapters w))
  /\ ticks w' = (5 + ticks w)%nat
  /\ io_fails w' = io_fails w.
Proof.
  intros Hok.
  pose proof (Hok 0%nat ltac:(lia)) as H0.
  pose proof (Hok 1%nat ltac:(lia)) as H1.
  pose proof (Hok 2%nat ltac:(lia)) as H2.
  pose proof (Hok 3%nat ltac:(lia)) as H3.
  pose proof (Hok 4%nat ltac:(lia)) as H4.
  clear Hok. op_norm.
  io_simpl. rewrite H0. io_simpl. rewrite H1. io_simpl. rewrite H2. io_simpl.
  rewrite H3. io_simpl. rewrite H4. io_simpl.
  unfold Storage.chapter_filepath, Storage.chapter_filename.
  repeat split.
  rewrite !lookup_insert_eq, !insert_insert_eq. f_equal.
  simpl. by rewrite <- !app_assoc.
Qed.

(** X5.  Saving the same chapter twice, with no file operation failing, is
    the same as saving it once: the chapter file, the handler's dictionary
    and [index.json] are as after the first save. *)
Theorem save_chapter_twice_is_once self idx title content url w :
  (forall k, (k < 10)%nat -> op_fails w k = false) ->
  let save := Storage.save_chapter self idx title content url in
  let once := (run save w).2 in
  let twice := (run save once).2 in
  fs twice = fs once
  /\ downloaded_chapters twice = downloaded_chapters once
  /\ index_file twice = index_file once.
Proof.
  intros Hok save once twice.
  destruct (save_chapter_succeeds self idx title content url w)
    as (Hfs & Hd & Hi & Ht & Hio); [intros k Hk; apply Hok; lia|].
  fold save in Hfs, Hd, Hi, Ht, Hio. fold once in Hfs, Hd, Hi, Ht, Hio.
  destruct (save_chapter_succeeds self idx title content url once)
    as (Hfs' & Hd' & Hi' & _).
  { intros k Hk. unfold op_fails. rewrite Hio, Ht.
    replace (k + (5 + ticks w))%nat with ((k + 5) + ticks w)%nat by lia.
    apply (Hok (k + 5)%nat). lia. }
  fold save in Hfs', Hd', Hi'. fold twice in Hfs', Hd', Hi'.
  rewrite Hfs', Hd', Hi', Hfs, Hd, Hi.
  by rewrite !insert_insert_eq.
Qed.

Lemma save_chapter_twice_is_once_witness :
  let w := example_world [] 10 in
  let save :=
    Storage.save_chapter example_handler 1 (py "T") (py "text") (py "u") in
  (forall k, (k < 10)%nat -> op_fails w k = false)
  /\ fs (run save (run save w).2).2 = fs (run save w).2.
Proof.
  intros w save.
  assert (forall k, (k < 10)%nat -> op_fails w k = false) as Hok.
  { intros k Hk. do 10 (destruct k as [|k]; [reflexivity|]). lia. }
  split; [exact Hok|].
  destruct (save_chapter_twice_is_once example_handler 1 (py "T") (py "text")
              (py "u") w Hok) as (Hfs & _).
  exact Hfs.
Defined.







(** ** What a save touches *)



(** X9.  [save_chapter] of main.py opens the file for writing before it
    writes: when the open fails the disk is as before, but when a write
    fails after it the old chapter is gone and the file holds nothing, or
    the title line alone; only with all three operations succeeding does it
    hold title, blank line and content.  No other file and neither copy of
    the index is touched. *)
Theorem main_save_chapter_outcomes novel_dir idx title content w :
  let path :=
    path_join novel_dir
      (fmt04d idx ++ py "_" ++ Main.clean_filename title ++ py ".txt") in
  let w' := (run (Main.save_chapter novel_dir idx title content) w).2 in
  (op_fails w 0 = true -> fs w' = fs w)
  /\ (op_fails w 0 = false -> op_fails w 1 = true -> fs w' !! path = Some [])
  /\ (op_fails w 0 = false -> op_fails w 1 = false -> op_fails w 2 = true ->
        fs w' !! path = Some (title ++ NL ++ NL))
  /\ (op_fails w 0 = false -> op_fails w 1 = false -> op_fails w 2 = false ->
        fs w' !! path = Some (title ++ NL ++ NL ++ content))
  /\ (forall q, q <> path -> fs w' !! q = fs w !! q)
  /\ downloaded_chapters w' = downloaded_chapters w
  /\ index_file w' = index_file w.
Proof.
  cbv zeta. split; [|split; [|split; [|split; [|split; [|split]]]]].
  - intros H0. op_norm. io_simpl. rewrite H0. by io_simpl.
  - intros H0 H1. op_norm. io_simpl. rewrite H0. io_simpl. rewrite H1.
    io_simpl. apply lookup_insert_eq.
  - intros H0 H1 H2. op_norm. io_simpl. rewrite H0. io_simpl. rewrite H1.
    io_simpl. rewrite H2. io_simpl. by rewrite !lookup_insert_eq.
  - intros H0 H1 H2. op_norm. io_simpl. rewrite H0. io_simpl. rewrite H1.
    io_simpl. rewrite H2. io_simpl. rewrite !lookup_insert_eq. simpl.
    by rewrite <- !app_assoc.
  - intros q Hq. io_cases; by rewrite ?lookup_insert_ne.
  - io_cases; reflexivity.
  - io_cases; reflexivity.
Qed.

Lemma main_save_chapter_outcomes_witness :
  let w := set_fs (fun _ => {[py "d/0001_T.txt" := py "old chapter"]})
                  (example_world [] 1) in
  let w' := (run (Main.save_chapter (py "d") 1 (py "T") (py "text")) w).2 in
  (op_fails w 0 = false /\ op_fails w 1 = true)
  /\ fs w !! py "d/0001_T.txt" = Some (py "old chapter")
  /\ fs w' !! py "d/0001_T.txt" = Some [].
Proof.
  intros w w'.
  assert (op_fails w 0 = false /\ op_fails w 1 = true) as Hyp by (by split).
  split; [exact Hyp|]. destruct Hyp as [H0 H1].
  split; [reflexivity|].
  destruct (main_save_chapter_outcomes (py "d") 1 (py "T") (py "text") w)
    as (_ & Htorn & _).
  exact (Htorn H0 H1).
Defined.

(** ** Every fetch is bounded *)

Section FetchBound.
Context `{Libraries}.
Variables url encoding : pystr.

Lemma fetch_loop_ends (n : nat) (w : world) :
  let out := Main.fetch_loop n url encoding w in
  (out = (Ok None, after_retries url n w))
  \/ (exists k result,
        (k < n)%nat /\ out = (Ok result, answered url (after_retries url k w))).
Proof.
  cbv zeta.
  destruct (first_settled_attempt w n) as [Hall | (k & Hk & Hall & Hset)].
  - left. pose proof (fetch_loop_retried url encoding n 0 w Hall) as Hrun.
    rewrite Nat.add_0_r in Hrun. by rewrite Hrun.
  - right. exists k.
    pose proof (fetch_loop_retried url encoding k (S (n - k - 1)) w Hall)
      as Hrun.
    replace (k + S (n - k - 1))%nat with n in Hrun by lia. rewrite Hrun.
    destruct (after_retries_fields url k w) as (_ & _ & _ & Hn & Hr & _).
    destruct (net w (reqs w + k)) as [e | status [raw | e]] eqn:Hnet;
      simpl in Hset; try discriminate.
    + destruct (decide (status = 200%Z)) as [-> | Hst].
      * exists (Some (Main.decode raw encoding)). split; [lia|].
        apply fetch_loop_ok. by rewrite Hn, Hr.
      * exists None. split; [lia|].
        apply (fetch_loop_bad_status _ _ _ _ status (Ok raw)); [|done].
        by rewrite Hn, Hr.
    + apply Z.eqb_neq in Hset. exists None. split; [lia|].
      apply (fetch_loop_bad_status _ _ _ _ status (Raise e)); [|done].
      by rewrite Hn, Hr.
Qed.

Lemma fetch_bounds (w : world) :
  let out := run (Main.fetch url encoding) w in
  (exists result, out.1 = Ok result)
  /\ (reqs w < reqs out.2 <= reqs w + Main.RETRIES)%nat
  /\ (exists k,
        (k <= Main.RETRIES)%nat
        /\ (trace out.2 = trace w ++ retried url k
            \/ trace out.2 = trace w ++ retried url k ++ [EvGet url]))
  /\ fs out.2 = fs w /\ ticks out.2 = ticks w
  /\ downloaded_chapters out.2 = downloaded_chapters w
  /\ index_file out.2 = index_file w.
Proof.
  cbv zeta. unfold run, Main.fetch.
  destruct (fetch_loop_ends Main.RETRIES w)
    as [-> | (k & result & Hk & ->)]; cbn [fst snd].
  - destruct (after_retries_fields url Main.RETRIES w)
      as (-> & -> & -> & _ & -> & _ & -> & ->).
    split; [by eexists|]. split; [unfold Main.RETRIES; lia|].
    split; [exists Main.RETRIES; split; [lia|by left]|]. done.
  - destruct (after_retries_fields url k w)
      as (Hfs & Hi & Hd & _ & Hr & _ & Ht & Htr).
    unfold answered. cbn.
    rewrite Hfs, Hi, Hd, Hr, Ht, Htr, <- app_assoc.
    split; [by eexists|]. split; [lia|].
    split; [exists k; split; [lia|by right]|]. done.
Qed.

(** X10.  Whatever the network does, [fetch] returns without raising after
    at least one and at most [RETRIES] requests, each but possibly the last
    followed by its one-second sleep, so that it sleeps three seconds at
    most; it makes no file operation and leaves the disk and both copies of
    the index as they are. *)
Theorem fetch_is_bounded (w : world) :
  let out := run (Main.fetch url encoding) w in
  (exists result, out.1 = Ok result)
  /\ (reqs w < reqs out.2 <= reqs w + Main.RETRIES)%nat
  /\ (exists k,
        (k <= Main.RETRIES)%nat
        /\ (trace out.2 = trace w ++ retried url k
            \/ trace out.2 = trace w ++ retried url k ++ [EvGet url]))
  /\ fs out.2 = fs w /\ ticks out.2 = ticks w
  /\ downloaded_chapters out.2 = downloaded_chapters w
  /\ index_file out.2 = index_file w.
Proof. apply fetch_bounds. Qed.

End FetchBound.

(** ** A job records nothing *)

Section JobFrame.
Context `{Libraries}.
Variables (url : pystr) (idx : Z) (rules : Main.Rules).
Variables encoding novel_dir : pystr.



End JobFrame.

(** ** The hint of the decoder *)

Section Hint.
Context `{Libraries}.





End Hint.


(** ** The shape of the content *)

Lemma join_head (sep p : pystr) (rest : list pystr) :
  p <> [] -> head (join sep (p :: rest)) = head p.
Proof. destruct p as [|c p]; [done|]. intros _. by destruct rest. Qed.

Lemma join_last (sep : pystr) (parts : list pystr) :
  Forall (fun p => p <> []) parts ->
  last (join sep parts) = last parts ≫= last.
Proof.
  intros Hparts. induction Hparts as [|p rest Hp Hrest IH]; [done|].
  destruct rest as [|q rest]; [done|].
  change (join sep (p :: q :: rest)) with (p ++ sep ++ join sep (q :: rest)).
  rewrite last_cons_cons, <- IH.
  assert (join sep (q :: rest) <> []) as Hne.
  { apply Forall_inv in Hrest. destruct q; [done|]. by destruct rest. }
  destruct (join sep (q :: rest)) as [|c l] eqn:Hj; [done|].
  by rewrite app_assoc, last_app_cons.
Qed.

(** X13.  The content handed to [save_chapter] neither starts nor ends with
    whitespace, however the matched blocks are padded. *)
Theorem content_has_no_outer_whitespace `{Libraries} (rules : Main.Rules)
    (html : pystr) (c : N) :
  head (Main.extract_content rules html) = Some c
  \/ last (Main.extract_content rules html) = Some c ->
  isspace c = false.
Proof.
  rewrite extract_content_spec. unfold content_spec.
  set (parts := List.filter truthy
                  (map strip (css_getall (Main.chapter_content rules) html))).
  assert (Forall (fun p => p <> [] /\ exists b, p = strip b) parts) as Hparts.
  { apply List.Forall_forall. intros p Hp.
    apply List.filter_In in Hp as [Hin Hp]. split; [by destruct p|].
    apply List.in_map_iff in Hin as (b & <- & _). by exists b. }
  assert (Forall (fun p : pystr => p <> []) parts) as Hne
    by (eapply Forall_impl; [exact Hparts|]; by intros p [? _]).
  intros [Hc | Hc].
  - destruct parts as [|p rest]; [done|].
    apply Forall_inv in Hparts as (Hp & b & ->).
    rewrite join_head in Hc by done. apply (strip_ends b). by left.
  - rewrite join_last in Hc by done.
    destruct (last parts) as [p|] eqn:Hl; [|done]. cbn in Hc.
    apply last_Some_elem_of in Hl. rewrite Forall_forall in Hparts.
    destruct (Hparts p Hl) as (_ & b & ->). apply (strip_ends b). by right.
Qed.

Lemma content_has_no_outer_whitespace_witness :
  let L := page_libraries [] [py "  "; py " a "; [9; 98; 10]] [] in
  head (Main.extract_content example_rules (py "h")) = Some 97
  /\ isspace 97 = false.
Proof.
  intros L.
  assert (head (Main.extract_content example_rules (py "h")) = Some 97)
    as Hyp by reflexivity.
  split; [exact Hyp|].
  exact (content_has_no_outer_whitespace example_rules (py "h") 97
           (or_introl Hyp)).
Defined.

(** ** The numbers of the tasks *)

Section TaskNumbers.
Context `{Libraries}.
Variables target attr : pystr.

Lemma tasks_from_cons (k : nat) (link : gmap (list N) (list N))
    (links : list (gmap (list N) (list N))) :
  omap id (imap (fun i => task_of_link target attr (k + i)) (link :: links))
  = option_list (task_of_link target attr k link)
    ++ omap id (imap (fun i => task_of_link target attr (S k + i)) links).
Proof.
  cbn [imap omap]. rewrite Nat.add_0_r.
  assert (imap ((fun i => task_of_link target attr (k + i)) ∘ S) links
          = imap (fun i => task_of_link target attr (S k + i)) links) as ->.
  { apply imap_ext. intros i x _. cbn. f_equal. lia. }
  unfold id at 1. by destruct (task_of_link target attr k link).
Qed.

Lemma task_of_link_cases (k : nat) (link : gmap (list N) (list N)) :
  (has_href attr link
   /\ exists t, task_of_link target attr k link = Some t
                /\ Main.task_idx t = S k)
  \/ (~ has_href attr link /\ task_of_link target attr k link = None).
Proof.
  unfold task_of_link, has_href.
  destruct (link !! attr) as [[|c href]|] eqn:Hl; cbn.
  - right. split; [|done]. by intros (h & [= <-] & ?).
  - left. split; [by eexists|]. eexists. split; [done|]. cbn. lia.
  - right. split; [|done]. by intros (h & [=] & ?).
Qed.

Lemma tasks_from_numbers (links : list (gmap (list N) (list N))) :
  forall k,
    let tasks :=
      omap id (imap (fun i => task_of_link target attr (k + i)) links) in
    Forall (fun t => k < Main.task_idx t <= k + length links)%nat tasks
    /\ StronglySorted lt (map Main.task_idx tasks)
    /\ (length tasks <= length links)%nat
    /\ (Forall (has_href attr) links ->
          map Main.task_idx tasks = seq (S k) (length links))
    /\ (Forall (fun link => ~ has_href attr link) links -> tasks = []).
Proof.
  induction links as [|link links IH]; intros k; cbv zeta.
  - cbn. repeat split; try constructor; done.
  - rewrite tasks_from_cons.
    destruct (IH (S k)) as (Hrange & Hsorted & Hlen & Hall & Hnone).
    cbv zeta in *.
    set (rest := omap id
                   (imap (fun i => task_of_link target attr (S k + i)) links))
      in *.
    assert (Forall (fun t => k < Main.task_idx t <= k + length (link :: links))%nat
                   rest) as Hrange'.
    { eapply Forall_impl; [exact Hrange|]. intros t Ht. cbv beta in *.
      cbn [length]. lia. }
    destruct (task_of_link_cases k link) as [(Hh & t & -> & Ht) | (Hno & ->)];
      cbn [option_list app map length].
    + split; [constructor; [cbn [length]; lia|exact Hrange']|].
      split.
      { constructor; [exact Hsorted|].
        apply Forall_fmap. eapply Forall_impl; [exact Hrange|].
        intros t' Ht'. unfold compose. cbv beta in Ht'. lia. }
      split; [cbn [length]; apply le_n_S, Hlen|]. split.
      * intros Hlinks. apply Forall_cons in Hlinks as [_ Hlinks].
        change (option_list (Some t) ++ rest) with (t :: rest).
        cbn [seq map length]. by rewrite Ht, (Hall Hlinks).
      * intros Hlinks. by apply Forall_cons in Hlinks as [? _].
    + split; [exact Hrange'|]. split; [exact Hsorted|].
      split; [cbn [length]; apply Nat.le_le_succ_r, Hlen|]. split.
      * intros Hlinks. by apply Forall_cons in Hlinks as [? _].
      * intros Hlinks. apply Forall_cons in Hlinks as [_ Hlinks]. auto.
Qed.

End TaskNumbers.

Lemma create_tasks_length `{Libraries} (target : pystr) (rules : Main.Rules)
    (toc_html : pystr) :
  (length (Main.create_tasks target rules toc_html)
   <= length (css_elements (Main.chapter_list rules) toc_html))%nat.
Proof.
  unfold Main.create_tasks. rewrite task_loop_spec.
  by destruct (tasks_from_numbers target (Main.chapter_link_attr rules)
                 (css_elements (Main.chapter_list rules) toc_html) 0%nat)
    as (_ & _ & Hlen & _).
Qed.

(** X14.  The numbers of the tasks [main] creates increase strictly along
    the list and lie between 1 and the number of matched links, so no two
    chapters of a run share a number and no more tasks than links are made.
    When every link carries the attribute the numbers are 1, 2, ... without a
    gap; when none does, no task is made. *)
Theorem task_numbers_increase `{Libraries} (target : pystr) (rules : Main.Rules)
    (toc_html : pystr) :
  let links := css_elements (Main.chapter_list rules) toc_html in
  let attr := Main.chapter_link_attr rules in
  let tasks := Main.create_tasks target rules toc_html in
  Forall (fun t => 1 <= Main.task_idx t <= length links)%nat tasks
  /\ StronglySorted lt (map Main.task_idx tasks)
  /\ (length tasks <= length links)%nat
  /\ (Forall (has_href attr) links ->
        map Main.task_idx tasks = seq 1 (length links))
  /\ (Forall (fun link => ~ has_href attr link) links -> tasks = []).
Proof.
  intros links attr tasks.
  assert (tasks = omap id (imap (fun i => task_of_link target attr (0 + i))
                             links)) as ->.
  { unfold tasks, Main.create_tasks. fold links. fold attr.
    by rewrite task_loop_spec. }
  destruct (tasks_from_numbers target attr links 0%nat)
    as (Hrange & Hsorted & Hlen & Hall & Hnone).
  cbv zeta in *. split; [|done].
  eapply Forall_impl; [exact Hrange|]. intros t Ht. cbn in Ht. lia.
Qed.

Lemma task_numbers_increase_witness :
  let L := page_libraries [] []
             [{[py "href" := py "/1"]}; {[py "href" := py "/2"]}] in
  let links := css_elements (Main.chapter_list example_rules) (py "toc") in
  Forall (has_href (py "href")) links
  /\ map Main.task_idx (Main.create_tasks (py "http://x") example_rules (py "toc"))
     = [1; 2]%nat.
Proof.
  intros L links.
  assert (Forall (has_href (py "href")) links) as Hyp.
  { repeat constructor;
      (eexists; split; [apply lookup_singleton_eq|discriminate]). }
  split; [exact Hyp|].
  destruct (task_numbers_increase (py "http://x") example_rules (py "toc"))
    as (_ & _ & _ & Hall & _).
  exact (Hall Hyp).
Defined.

(** ** Looking up the rule of a site *)

Section Rule.
Context `{UrlParse}.

Lemma find_site_first (domain : pystr) (sites : list RuleManager.Site) :
  match RuleManager.find_site domain sites with
  | Some site =>
    exists before after,
      sites = before ++ site :: after
      /\ domain ∈ default [] (RuleManager.domains site)
      /\ Forall (fun s => domain ∉ default [] (RuleManager.domains s)) before
  | None =>
    Forall (fun s => domain ∉ default [] (RuleManager.domains s)) sites
  end.
Proof.
  induction sites as [|site sites IH]; cbn [RuleManager.find_site];
    [by constructor|].
  case_bool_decide as Hin.
  - by exists [], sites.
  - destruct (RuleManager.find_site domain sites) as [found|].
    + destruct IH as (before & after & -> & Hfound & Hbefore).
      exists (site :: before), after. repeat split; [done|by constructor].
    + by constructor.
Qed.

(** X15.  [get_rule_by_url] returns the first site of the configuration
    whose domains hold the host of the url: no site before it lists the
    host.  It returns nothing exactly when no site lists the host, so always
    when the configuration could not be loaded, and a site without a
    domains key is never chosen. *)
Theorem first_listed_site_is_chosen (sites : list RuleManager.Site)
    (url : pystr) :
  (forall site,
     RuleManager.get_rule_by_url sites url = Some site ->
     exists before after,
       sites = before ++ site :: after
       /\ netloc url ∈ default [] (RuleManager.domains site)
       /\ RuleManager.domains site <> None
       /\ Forall (fun s => netloc url ∉ default [] (RuleManager.domains s))
                 before)
  /\ (RuleManager.get_rule_by_url sites url = None <->
      Forall (fun s => netloc url ∉ default [] (RuleManager.domains s)) sites)
  /\ RuleManager.get_rule_by_url
       (RuleManager._load_config RuleManager.Unloadable) url = None.
Proof.
  unfold RuleManager.get_rule_by_url. cbv zeta.
  pose proof (find_site_first (netloc url) sites) as Hfind.
  split; [|split; [|done]].
  - intros site Hsite. rewrite Hsite in Hfind.
    destruct Hfind as (before & after & Hs & Hin & Hbefore).
    exists before, after. repeat split; try done.
    intros Hnone. rewrite Hnone in Hin. by apply elem_of_nil in Hin.
  - split.
    + intros Hnone. by rewrite Hnone in Hfind.
    + intros Hall.
      destruct (RuleManager.find_site (netloc url) sites) as [site|]; [|done].
      destruct Hfind as (before & after & -> & Hin & _).
      apply Forall_app in Hall as [_ Hall].
      by apply Forall_cons in Hall as [? _].
Qed.

End Rule.

Lemma first_listed_site_is_chosen_witness :
  let U := example_url_parse in
  let other := {| RuleManager.site_name := py "other";
                  RuleManager.domains := None;
                  RuleManager.site_rules := example_rules;
                  RuleManager.site_encoding := None |} in
  RuleManager.get_rule_by_url [other; example_site] Orchestrator.TARGET_URL
  = Some example_site
  /\ exists before after,
       [other; example_site] = before ++ example_site :: after
       /\ RuleManager.domains example_site <> None.
Proof.
  intros U other.
  assert (RuleManager.get_rule_by_url [other; example_site]
            Orchestrator.TARGET_URL = Some example_site) as Hyp
    by (vm_compute; reflexivity).
  split; [exact Hyp|].
  destruct (first_listed_site_is_chosen [other; example_site]
              Orchestrator.TARGET_URL) as (Hfirst & _).
  destruct (Hfirst example_site Hyp) as (before & after & Hs & _ & Hd & _).
  by exists before, after.
Defined.

(** ** The start of [main] *)

Section Setup.
Context `{Libraries} `{UrlParse} `{JsonDump}.

Lemma main_setup_with_rule config site w :
  RuleManager.get_rule_by_url (RuleManager._load_config config)
    Orchestrator.TARGET_URL = Some site ->
  op_fails w 0 = false ->
  forall result w1,
    run (Main.fetch Orchestrator.TARGET_URL (py "auto")) (bump_ticks w)
    = (Ok result, w1) ->
    let novel_dir := path_join (py "downloads") Orchestrator.NOVEL_NAME in
    let meta_path := path_join novel_dir (py "meta.json") in
    let rules := RuleManager.site_rules site in
    let page := default [] result in
    let links := css_elements (Main.chapter_list rules) page in
    let meta_info := {|
      meta_name := Orchestrator.NOVEL_NAME;
      meta_url := Orchestrator.TARGET_URL;
      total_chapters := length links;
      meta_status := py "downloading"
    |} in
    run (Orchestrator.main_setup config) w
    = if negb (Main.truthy_opt result) then (Ok None, w1)
      else run (open_w meta_path ;;
                write meta_path (json_dump_meta meta_info) ;;
                ret (Some (Main.create_tasks Orchestrator.TARGET_URL rules
                             page))) w1.
Proof.
  intros Hrule Hmk result w1 Hfetch. cbv zeta.
  unfold op_fails in Hmk. cbn [Nat.add] in Hmk. unfold run in *.
  unfold Orchestrator.main_setup. rewrite Hrule.
  unfold Storage.makedirs, file_op. unfold bind at 1. rewrite Hmk.
  unfold bind at 1. rewrite Hfetch.
  by destruct (negb (Main.truthy_opt result)).
Qed.

(** X16.  [main] stops before any download in three ways.  With no rule for
    the host of the target it returns at once: no request, no file
    operation, the world is as before.  When the novel directory cannot be
    made the error leaves [main] and no request has been issued.  When the
    table of contents cannot be fetched, or is empty, [main] returns with no
    task and without [meta.json]: the files are as before. *)
Theorem main_stops_early (config : RuleManager.config_file) (w : world) :
  let out := run (Orchestrator.main_setup config) w in
  let rule := RuleManager.get_rule_by_url (RuleManager._load_config config)
                Orchestrator.TARGET_URL in
  (rule = None -> out = (Ok None, w))
  /\ (rule <> None -> op_fails w 0 = true ->
        out.1 = Raise OSError /\ reqs out.2 = reqs w /\ fs out.2 = fs w
        /\ trace out.2 = trace w)
  /\ (rule <> None -> op_fails w 0 = false ->
      forall result w1,
        run (Main.fetch Orchestrator.TARGET_URL (py "auto")) (bump_ticks w)
        = (Ok result, w1) ->
        Main.truthy_opt result = false ->
        out = (Ok None, w1) /\ fs w1 = fs w /\ ticks w1 = S (ticks w)).
Proof.
  cbv zeta. split; [|split].
  - intros Hrule. unfold run, Orchestrator.main_setup. by rewrite Hrule.
  - intros Hrule Hmk. unfold op_fails in Hmk. cbn [Nat.add] in Hmk.
    assert (run (Orchestrator.main_setup config) w
            = (Raise OSError, bump_ticks w)) as ->; [|done].
    unfold run, Orchestrator.main_setup.
    destruct (RuleManager.get_rule_by_url _ _) as [site|]; [|done].
    unfold Storage.makedirs, file_op. unfold bind at 1. by rewrite Hmk.
  - intros Hrule Hmk result w1 Hfetch Hfalsy.
    destruct (RuleManager.get_rule_by_url _ _) as [site|] eqn:Hsite; [|done].
    rewrite (main_setup_with_rule config site w Hsite Hmk result w1 Hfetch).
    rewrite Hfalsy. split; [done|].
    destruct (fetch_loop_frame Orchestrator.TARGET_URL (py "auto")
                Main.RETRIES (bump_ticks w))
      as (_ & Hfs & _ & _ & _ & Htk & _).
    unfold run, Main.fetch in Hfetch. rewrite Hfetch in Hfs, Htk.
    by cbn in *.
Qed.

(** X17.  Writing [meta.json] is not guarded: when its open or its write
    fails the error leaves [main] and no task is created.  When both
    succeed, the tasks are created and [meta.json] holds the dump of the
    metadata, whose total_chapters is the number of matched links, never
    less than the number of tasks. *)
Theorem meta_write_is_unguarded (config : RuleManager.config_file)
    (site : RuleManager.Site) (w w1 : world) (page : pystr) :
  RuleManager.get_rule_by_url (RuleManager._load_config config)
    Orchestrator.TARGET_URL = Some site ->
  op_fails w 0 = false ->
  run (Main.fetch Orchestrator.TARGET_URL (py "auto")) (bump_ticks w)
  = (Ok (Some page), w1) ->
  truthy page = true ->
  let out := run (Orchestrator.main_setup config) w in
  let rules := RuleManager.site_rules site in
  let links := css_elements (Main.chapter_list rules) page in
  let tasks := Main.create_tasks Orchestrator.TARGET_URL rules page in
  let meta_path :=
    path_join (path_join (py "downloads") Orchestrator.NOVEL_NAME)
              (py "meta.json") in
  (op_fails w 1 = true -> out.1 = Raise OSError)
  /\ (op_fails w 1 = false -> op_fails w 2 = true -> out.1 = Raise OSError)
  /\ (op_fails w 1 = false -> op_fails w 2 = false ->
        out.1 = Ok (Some tasks)
        /\ fs out.2 !! meta_path
           = Some (json_dump_meta
                     {| meta_name := Orchestrator.NOVEL_NAME;
                        meta_url := Orchestrator.TARGET_URL;
                        total_chapters := length links;
                        meta_status := py "downloading" |})
        /\ (length tasks <= length links)%nat).
Proof.
  intros Hsite Hmk Hfetch Hpage. cbv zeta.
  rewrite (main_setup_with_rule config site w Hsite Hmk (Some page) w1 Hfetch).
  cbn [Main.truthy_opt default]. rewrite Hpage. cbn [negb].
  destruct (fetch_loop_frame Orchestrator.TARGET_URL (py "auto")
              Main.RETRIES (bump_ticks w))
    as (_ & _ & _ & _ & Hio & Htk & _).
  unfold run, Main.fetch in Hfetch. rewrite Hfetch in Hio, Htk.
  cbn [snd bump_ticks io_fails ticks] in Hio, Htk.
  split; [|split].
  - intros Hop1. op_norm. io_simpl. rewrite Hio, Htk, Hop1. by io_simpl.
  - intros Hop1 Hop2. op_norm. io_simpl. rewrite Hio, Htk, Hop1. io_simpl.
    rewrite Hio, Htk, Hop2. by io_simpl.
  - intros Hop1 Hop2. op_norm. io_simpl. rewrite Hio, Htk, Hop1. io_simpl.
    rewrite Hio, Htk, Hop2. io_simpl.
    split; [done|]. split; [by rewrite !lookup_insert_eq|].
    apply create_tasks_length.
Qed.

End Setup.

Lemma main_stops_early_witness :
  let L := page_libraries [] [] [] in
  let U := example_url_parse in
  let J := example_json_dump in
  let w := example_world [Response 404 (Ok [])] 9 in
  let config := RuleManager.Loaded [example_site] in
  let out := run (Orchestrator.main_setup config) w in
  (RuleManager.get_rule_by_url (RuleManager._load_config config)
     Orchestrator.TARGET_URL <> None
   /\ op_fails w 0 = false
   /\ run (Main.fetch Orchestrator.TARGET_URL (py "auto")) (bump_ticks w)
      = (Ok None, answered Orchestrator.TARGET_URL (bump_ticks w))
   /\ Main.truthy_opt None = false)
  /\ out = (Ok None, answered Orchestrator.TARGET_URL (bump_ticks w)).
Proof.
  intros L U J w config out.
  assert (RuleManager.get_rule_by_url (RuleManager._load_config config)
            Orchestrator.TARGET_URL <> None
          /\ op_fails w 0 = false
          /\ run (Main.fetch Orchestrator.TARGET_URL (py "auto")) (bump_ticks w)
             = (Ok None, answered Orchestrator.TARGET_URL (bump_ticks w))
          /\ Main.truthy_opt None = false) as Hyp.
  { split; [by vm_compute|]. by repeat split. }
  split; [exact Hyp|]. destruct Hyp as (Hrule & Hmk & Hfetch & Hfalsy).
  destruct (main_stops_early config w) as (_ & _ & Htoc).
  destruct (Htoc Hrule Hmk None _ Hfetch Hfalsy) as (Hout & _).
  exact Hout.
Defined.

Lemma meta_write_is_unguarded_witness :
  let L := page_libraries [] []
             [∅; {[py "href" := py "/1"]}; {[py "href" := py "/2"]}] in
  let U := example_url_parse in
  let J := example_json_dump in
  let w := example_world [Response 200 (Ok [x68])] 9 in
  let config := RuleManager.Loaded [example_site] in
  let out := run (Orchestrator.main_setup config) w in
  (RuleManager.get_rule_by_url (RuleManager._load_config config)
     Orchestrator.TARGET_URL = Some example_site
   /\ op_fails w 0 = false
   /\ run (Main.fetch Orchestrator.TARGET_URL (py "auto")) (bump_ticks w)
      = (Ok (Some (py "h")), answered Orchestrator.TARGET_URL (bump_ticks w))
   /\ truthy (py "h") = true
   /\ op_fails w 1 = false /\ op_fails w 2 = false)
  /\ out.1
     = Ok (Some (Main.create_tasks Orchestrator.TARGET_URL example_rules
                   (py "h")))
  /\ (length (Main.create_tasks Orchestrator.TARGET_URL example_rules (py "h"))
      <= 3)%nat.
Proof.
  intros L U J w config out.
  assert (RuleManager.get_rule_by_url (RuleManager._load_config config)
            Orchestrator.TARGET_URL = Some example_site
          /\ op_fails w 0 = false
          /\ run (Main.fetch Orchestrator.TARGET_URL (py "auto")) (bump_ticks w)
             = (Ok (Some (py "h")),
                answered Orchestrator.TARGET_URL (bump_ticks w))
          /\ truthy (py "h") = true
          /\ op_fails w 1 = false /\ op_fails w 2 = false) as Hyp.
  { split; [by vm_compute|]. by repeat split. }
  split; [exact Hyp|].
  destruct Hyp as (Hrule & Hmk & Hfetch & Hpage & H1 & H2).
  destruct (meta_write_is_unguarded config example_site w _ (py "h")
              Hrule Hmk Hfetch Hpage) as (_ & _ & Hdone).
  destruct (Hdone H1 H2) as (Hout & _ & Hlen).
  split; [exact Hout|exact Hlen].
Defined.

(** ** Saving the metadata *)

(** X18.  [save_meta] never raises.  When its open and its write succeed,
    [meta.json] under the base directory holds the dump and the call logs an
    info record; when one of them fails the call logs an error record and
    returns all the same.  No other file and neither copy of the index is
    touched. *)
Theorem save_meta_is_fire_and_forget `{JsonDump}
    (self : Storage.StorageHandler) (meta_info : MetaInfo) (w : world) :
  let path := path_join (Storage.base_dir self) (py "meta.json") in
  let out := run (Meta.save_meta self meta_info) w in
  out.1 = Ok tt
  /\ (op_fails w 0 = false -> op_fails w 1 = false ->
        fs out.2 !! path = Some (json_dump_meta meta_info)
        /\ last (trace out.2) = Some EvLogInfo)
  /\ (op_fails w 0 = true \/ op_fails w 1 = true ->
        last (trace out.2) = Some EvLogError)
  /\ (forall q, q <> path -> fs out.2 !! q = fs w !! q)
  /\ downloaded_chapters out.2 = downloaded_chapters w
  /\ index_file out.2 = index_file w.
Proof.
  cbv zeta. unfold Meta.save_meta.
  split; [|split; [|split; [|split; [|split]]]].
  - io_cases; reflexivity.
  - intros Hop0 Hop1. op_norm. io_simpl. rewrite Hop0. io_simpl.
    rewrite Hop1. io_simpl.
    split; [by rewrite !lookup_insert_eq|apply last_snoc].
  - intros [Hop | Hop]; op_norm; io_cases; rewrite ?last_snoc; congruence.
  - intros q Hq. io_cases; by rewrite ?lookup_insert_ne.
  - io_cases; reflexivity.
  - io_cases; reflexivity.
Qed.

Lemma save_meta_is_fire_and_forget_witness :
  let J := example_json_dump in
  let meta := {| meta_name := py "novel"; meta_url := py "u";
                 total_chapters := 2; meta_status := py "downloading" |} in
  let w := example_world [] 1 in
  let out := run (Meta.save_meta example_handler meta) w in
  (op_fails w 0 = true \/ op_fails w 1 = true)
  /\ out.1 = Ok tt
  /\ last (trace out.2) = Some EvLogError.
Proof.
  intros J meta w out.
  assert (op_fails w 0 = true \/ op_fails w 1 = true) as Hyp by (by right).
  split; [exact Hyp|].
  destruct (save_meta_is_fire_and_forget example_handler meta w)
    as (Hok & _ & Hlog & _).
  split; [exact Hok|exact (Hlog Hyp)].
Defined.

(** ** The tasks run to the end *)

Section Completion.
Import Scheduler.

Lemma sum_steps_insert ps : forall i p q,
  ps !! i = Some p ->
  (sum_list (map steps_left (<[i := q]> ps)) + steps_left p
   = sum_list (map steps_left ps) + steps_left q)%nat.
Proof.
  induction ps as [|x ps IH]; intros [|i] p q Hp; try done.
  - injection Hp as ->. change (<[0%nat := q]> (p :: ps)) with (q :: ps).
    simpl. lia.
  - change (<[S i := q]> (x :: ps)) with (x :: <[i := q]> ps).
    simpl. specialize (IH i p q Hp). lia.
Qed.

Lemma step_uses_work s s' :
  step s s' -> (work_left s' < work_left s)%nat.
Proof.
  unfold work_left.
  intros [n ps i Hp | n ps i Hp | n ps i Hp | n ps i Hp | n ps i Hp
         | n ps i Hp]; cbn [phases];
    match goal with
    | |- context [<[i := ?q]> ps] =>
      pose proof (sum_steps_insert ps i _ q Hp) as Hc
    end; cbn [steps_left] in Hc; lia.
Qed.

Lemma step_keeps_tasks s s' :
  step s s' -> length (phases s') = length (phases s).
Proof.
  intros [n ps i Hp | n ps i Hp | n ps i Hp | n ps i Hp | n ps i Hp
         | n ps i Hp]; cbn [phases]; apply length_insert.
Qed.

Lemma work_left_init limit jobs : work_left (init limit jobs) = (4 * jobs)%nat.
Proof.
  unfold work_left, init. cbn [phases].
  induction jobs as [|jobs IH]; [done|].
  simpl in *. lia.
Qed.

(** X19.  The tasks cannot run for ever: every step of a task uses up one of
    the at most four suspension points it has ahead, so after [n] steps from
    the start [n] plus the work left is at most four times the number of
    jobs, and no run is longer than that. *)
Theorem runs_are_bounded (limit jobs n : nat) (s : sched) :
  nsteps step n (init limit jobs) s ->
  (n + work_left s <= 4 * jobs)%nat /\ length (phases s) = jobs.
Proof.
  intros Hrun.
  assert (forall s0, nsteps step n s0 s ->
            (n + work_left s <= work_left s0)%nat
            /\ length (phases s) = length (phases s0)) as Hgen.
  { clear Hrun. intros s0 Hrun.
    induction Hrun as [s0|n s0 s1 s2 Hstep Hrun [IHw IHl]]; [by split; lia|].
    pose proof (step_uses_work _ _ Hstep).
    pose proof (step_keeps_tasks _ _ Hstep). split; [lia|congruence]. }
  destruct (Hgen _ Hrun) as [Hw Hl].
  rewrite work_left_init in Hw. split; [exact Hw|].
  rewrite Hl. unfold init. cbn [phases]. apply repeat_length.
Qed.

Lemma runs_are_bounded_witness :
  let s := Sched 1 [Finished; Pending] in
  nsteps step 2 (init 1 2) s /\ (2 + work_left s <= 4 * 2)%nat.
Proof.
  intros s.
  assert (nsteps step 2 (init 1 2) s) as Hrun.
  { eapply nsteps_l; [apply (step_acquire 0 [Pending; Pending] 0); reflexivity|].
    eapply nsteps_l;
      [apply (step_fetch_failed 0 [Fetching; Pending] 0); reflexivity|].
    apply nsteps_O. }
  split; [exact Hrun|].
  destruct (runs_are_bounded 1 2 2 s Hrun) as [Hbound _].
  exact Hbound.
Defined.

Lemma no_slot_held ps :
  Forall (fun p => holds_slot p = false) ps -> count holds_slot ps = 0%nat.
Proof.
  intros Hps. induction Hps as [|p ps Hp _ IH]; [done|].
  by rewrite count_cons, Hp, IH.
Qed.

Lemma repeat_lookup {A} (x y : A) (n i : nat) :
  repeat x n !! i = Some y -> y = x.
Proof.
  revert i. induction n as [|n IH]; intros [|i] Hy; try done.
  - by injection Hy as <-.
  - by apply (IH i).
Qed.

(** X20.  With a limit of at least one the tasks never get stuck before the
    end: in a state the tasks can reach in which no task can move, every task
    is finished and every slot is back in the semaphore.  With a limit of
    zero no task ever starts: the start is the only state there is. *)
Theorem tasks_run_to_completion (limit jobs : nat) (s : sched) :
  reachable limit jobs s ->
  ((1 <= limit)%nat -> quiescent s ->
     Forall (fun p => p = Finished) (phases s) /\ sem_value s = limit)
  /\ (limit = 0%nat -> s = init 0 jobs).
Proof.
  intros Hreach. split.
  - intros Hlimit Hstuck.
    pose proof (reachable_keeps_slots limit jobs s Hreach) as Hinv.
    destruct s as [n ps]. cbn [sem_value phases] in *.
    assert (Forall (fun p => holds_slot p = false) ps) as Hfree.
    { apply Forall_lookup. intros i p Hp.
      destruct p; try done; exfalso.
      - eapply Hstuck, (step_fetch_failed n ps i Hp).
      - eapply Hstuck, (step_persisted n ps i Hp).
      - eapply Hstuck, (step_delay_over n ps i Hp). }
    rewrite (no_slot_held ps Hfree) in Hinv.
    split; [|lia].
    apply Forall_lookup. intros i p Hp.
    pose proof (proj1 (Forall_lookup _ _) Hfree i p Hp) as Hp'.
    destruct p; try done. exfalso.
    destruct n as [|n]; [lia|].
    eapply Hstuck, (step_acquire n ps i Hp).
  - intros ->. unfold reachable in Hreach. revert s Hreach.
    apply rtc_ind_r; [done|]. intros s s' _ Hstep ->.
    exfalso. unfold init in Hstep.
    inversion Hstep as [n ps i Hp | n ps i Hp | n ps i Hp | n ps i Hp
                       | n ps i Hp | n ps i Hp]; subst;
      apply repeat_lookup in Hp; discriminate Hp.
Qed.

Lemma tasks_run_to_completion_witness :
  let s := Sched 1 [Finished] in
  (reachable 1 1 s /\ (1 <= 1)%nat /\ quiescent s)
  /\ Forall (fun p => p = Finished) (phases s) /\ sem_value s = 1%nat.
Proof.
  intros s.
  assert (reachable 1 1 s /\ (1 <= 1)%nat /\ quiescent s) as Hyp.
  { split; [|split; [lia|]].
    - eapply rtc_l; [apply (step_acquire 0 [Pending] 0); reflexivity|].
      apply rtc_once. apply (step_fetch_failed 0 [Fetching] 0). reflexivity.
    - intros s' Hstep.
      inversion Hstep as [n ps i Hp | n ps i Hp | n ps i Hp | n ps i Hp
                         | n ps i Hp | n ps i Hp]; subst;
        destruct i; discriminate Hp. }
  split; [exact Hyp|]. destruct Hyp as (Hreach & Hlimit & Hstuck).
  destruct (tasks_run_to_completion 1 1 s Hreach) as (Hdone & _).
  exact (Hdone Hlimit Hstuck).
Defined.

End Completion.

(** ** Two chapters, one file *)

(** X21.  The name of a chapter file depends on the number and the cleaned
    title alone.  When two urls are saved with the same number and titles
    that clean alike, both end up in the index naming the same file, and the
    file holds the text of the second: the first chapter is indexed as
    downloaded although its text is gone. *)
Theorem same_name_chapters_share_a_file self idx title title' content
    content' url url' w :
  Storage._clean_str title = Storage._clean_str title' ->
  url <> url' ->
  (forall k, (k < 10)%nat -> op_fails w k = false) ->
  let first := (run (Storage.save_chapter self idx title content url) w).2 in
  let both :=
    (run (Storage.save_chapter self idx title' content' url') first).2 in
  let name := Storage.chapter_filename idx title in
  Storage.chapter_filepath self idx title'
  = Storage.chapter_filepath self idx title
  /\ fs both !! Storage.chapter_filepath self idx title
     = Some (title' ++ NL ++ NL ++ content')
  /\ downloaded_chapters both !! url
     = Some (Entry idx (Storage._clean_str title) name)
  /\ downloaded_chapters both !! url'
     = Some (Entry idx (Storage._clean_str title) name).
Proof.
  intros Hclean Hurl Hok first both name.
  assert (Storage.chapter_filename idx title' = name) as Hname
    by (unfold name, Storage.chapter_filename; by rewrite Hclean).
  assert (Storage.chapter_filepath self idx title'
          = Storage.chapter_filepath self idx title) as Hpath
    by (unfold Storage.chapter_filepath; by rewrite Hname).
  destruct (save_chapter_succeeds self idx title content url w)
    as (Hfs & Hd & _ & Ht & Hio); [intros k Hk; apply Hok; lia|].
  fold first in Hfs, Hd, Ht, Hio.
  destruct (save_chapter_succeeds self idx title' content' url' first)
    as (Hfs' & Hd' & _).
  { intros k Hk. unfold op_fails. rewrite Hio, Ht.
    replace (k + (5 + ticks w))%nat with ((k + 5) + ticks w)%nat by lia.
    apply (Hok (k + 5)%nat). lia. }
  fold both in Hfs', Hd'. rewrite Hpath, Hname, <- Hclean in *.
  split; [done|]. rewrite Hfs', Hd', Hd.
  split; [by rewrite lookup_insert_eq|].
  split; [|by rewrite lookup_insert_eq].
  by rewrite lookup_insert_ne, lookup_insert_eq.
Qed.

Lemma same_name_chapters_share_a_file_witness :
  let w := example_world [] 10 in
  let first :=
    (run (Storage.save_chapter example_handler 1 (py "a?") (py "one") (py "u1"))
         w).2 in
  let both :=
    (run (Storage.save_chapter example_handler 1 (py "a") (py "two") (py "u2"))
         first).2 in
  (Storage._clean_str (py "a?") = Storage._clean_str (py "a")
   /\ py "u1" <> py "u2"
   /\ forall k, (k < 10)%nat -> op_fails w k = false)
  /\ fs both !! Storage.chapter_filepath example_handler 1 (py "a?")
     = Some (py "a" ++ NL ++ NL ++ py "two")
  /\ is_Some (downloaded_chapters both !! py "u1").
Proof.
  intros w first both.
  assert (Storage._clean_str (py "a?") = Storage._clean_str (py "a")
          /\ py "u1" <> py "u2"
          /\ forall k, (k < 10)%nat -> op_fails w k = false) as Hyp.
  { split; [reflexivity|]. split; [discriminate|].
    intros k Hk. do 10 (destruct k as [|k]; [reflexivity|]). lia. }
  split; [exact Hyp|]. destruct Hyp as (Hclean & Hurl & Hok).
  destruct (same_name_chapters_share_a_file example_handler 1 (py "a?")
              (py "a") (py "one") (py "two") (py "u1") (py "u2") w
              Hclean Hurl Hok) as (_ & Hfile & Hfirst & _).
  split; [exact Hfile|]. eexists. exact Hfirst.
Defined.

(** ** A chapter from the request to the file *)

Section EndToEnd.
Context `{Libraries}.
Variables (url : pystr) (idx : Z) (rules : Main.Rules).
Variables encoding novel_dir : pystr.

(** X22.  When the first request is answered with status 200, the decoded
    page is not empty, the title selector finds a non-empty title, some
    content block is not blank and the three file operations succeed, then
    [download_chapter] leaves the file of that number and cleaned title with
    the title, a blank line and the joined content, and its events are, in
    this order: the slot taken, one request, the open and the two writes,
    the politeness delay, the slot given back. *)
Theorem download_chapter_saves_the_chapter (w : world) (raw : bytes)
    (title : pystr) :
  net w (reqs w) = Response 200 (Ok raw) ->
  let html := Main.decode raw encoding in
  let blocks := css_getall (Main.chapter_content rules) html in
  truthy html = true ->
  head (css_getall (Main.chapter_title rules) html) = Some title ->
  title <> [] ->
  ~ Forall blank blocks ->
  (forall k, (k < 3)%nat -> op_fails w k = false) ->
  let content := content_spec blocks in
  let path :=
    path_join novel_dir
      (fmt04d idx ++ py "_" ++ Main.clean_filename title ++ py ".txt") in
  let out := run (Main.download_chapter url idx rules encoding novel_dir) w in
  out.1 = Ok tt
  /\ fs out.2 !! path = Some (title ++ NL ++ NL ++ content)
  /\ trace out.2
     = trace w ++
       [EvAcquire; EvGet url; EvOpenW path; EvWrite path (title ++ NL ++ NL);
        EvWrite path content; EvSleep Main.DELAY; EvRelease].
Proof.
  intros Hnet html blocks Hhtml Htitle Hne Hblocks Hok content path out.
  set (w0 := record_event EvAcquire w).
  assert (run (Main.fetch url encoding) w0 = (Ok (Some html), answered url w0))
    as Hfetch by (by apply fetch_loop_ok).
  pose proof (download_body_after_fetch url idx rules encoding novel_dir w0
                html (answered url w0) Hfetch Hhtml) as Hsave.
  rewrite extract_content_spec in Hsave. unfold Main.extract_title in Hsave.
  fold blocks in Hsave. fold content in Hsave. rewrite Htitle in Hsave.
  cbn [Main.truthy_opt default] in Hsave. change (id title) with title in Hsave.
  assert (truthy title && truthy content = true) as Hgate.
  { apply andb_true_iff. split; [by destruct title|].
    destruct content eqn:Hc; [|done].
    by apply content_spec_empty in Hc. }
  rewrite Hgate in Hsave.
  assert (out = run (Main.save_chapter novel_dir idx title content ;;
                     sleep Main.DELAY ;; emit EvRelease) (answered url w0))
    as ->.
  { unfold out, run in *.
    cbv beta iota zeta delta [Main.download_chapter try_finally bind emit].
    fold w0. rewrite Hsave. cbv beta iota zeta delta [bind sleep emit].
    destruct (save_chapter_frame idx novel_dir title content (answered url w0))
      as (Hsaved & _).
    unfold run in Hsaved.
    by destruct (Main.save_chapter novel_dir idx title content
                   (answered url w0)) as [[[]|e] w2]. }
  pose proof (Hok 0%nat ltac:(lia)) as Hop0.
  pose proof (Hok 1%nat ltac:(lia)) as Hop1.
  pose proof (Hok 2%nat ltac:(lia)) as Hop2.
  clear Hok. op_norm. unfold answered, w0. io_simpl.
  rewrite Hop0. io_simpl. rewrite Hop1. io_simpl. rewrite Hop2. io_simpl.
  split; [done|]. split.
  - rewrite !lookup_insert_eq. simpl. by rewrite <- !app_assoc.
  - by rewrite <- !app_assoc.
Qed.

End EndToEnd.

Lemma download_chapter_saves_the_chapter_witness :
  let L := page_libraries [py "T"] [py " new "; py "  "] [] in
  let w := example_world [Response 200 (Ok [x68])] 9 in
  let out :=
    run (Main.download_chapter (py "u") 1 example_rules (py "auto") (py "d")) w in
  (net w (reqs w) = Response 200 (Ok [x68])
   /\ truthy (Main.decode [x68] (py "auto")) = true
   /\ head (css_getall (Main.chapter_title example_rules)
              (Main.decode [x68] (py "auto"))) = Some (py "T")
   /\ py "T" <> []
   /\ ~ Forall blank (css_getall (Main.chapter_content example_rules)
                        (Main.decode [x68] (py "auto")))
   /\ forall k, (k < 3)%nat -> op_fails w k = false)
  /\ fs out.2 !! py "d/0001_T.txt" = Some (py "T" ++ NL ++ NL ++ py "new").
Proof.
  intros L w out.
  assert (net w (reqs w) = Response 200 (Ok [x68])
          /\ truthy (Main.decode [x68] (py "auto")) = true
          /\ head (css_getall (Main.chapter_title example_rules)
                     (Main.decode [x68] (py "auto"))) = Some (py "T")
          /\ py "T" <> []
          /\ ~ Forall blank (css_getall (Main.chapter_content example_rules)
                               (Main.decode [x68] (py "auto")))
          /\ forall k, (k < 3)%nat -> op_fails w k = false) as Hyp.
  { repeat split; try discriminate.
    - intros Hall. apply Forall_inv in Hall. discriminate Hall.
    - intros k Hk. do 3 (destruct k as [|k]; [reflexivity|]). lia. }
  split; [exact Hyp|].
  destruct Hyp as (Hnet & Hhtml & Htitle & Hne & Hblocks & Hok).
  destruct (download_chapter_saves_the_chapter (py "u") 1 example_rules
              (py "auto") (py "d") w [x68] (py "T")
              Hnet Hhtml Htitle Hne Hblocks Hok) as (_ & Hfile & _).
  exact Hfile.
Defined.
